(** * Mixture-of-Agents MLB recap notebook: tools, agents and pipeline cell

    A shallow embedding of the code cells of
    [tutorials/phidata-mixture-of-agents/Mixture-of-Agents-Phidata-Groq.ipynb]:
    the three tool functions ([get_game_info], [get_batting_stats],
    [get_pitching_stats]), the cell that defines [default_date] and the seven
    assistants, and the cell that chains them.

    Conventions of the model.
    - A Python call either returns or raises: [outcome A].  The third
      constructor [Unmodelled] marks inputs on which this development does
      not say what Python does (regular-expression syntax outside the
      fragment of [re_parse]).
    - Python [str] is [string]: text of the code points 0 to 255, one
      character per code point.  Letter case is folded as Python does on
      these code points (A-Z and the capital letters 192-214 and 216-222 go
      to the letter 32 places up).
    - What [statsapi], [pandas], [re], [json], [datetime] and [phi] do is
      written out for the calls the notebook makes, with the arguments it
      passes.
    - [get_game_info_with] is [get_game_info] with the [re] library as a
      parameter: what does not depend on the meaning of a pattern is proved
      there, for every team name; [get_game_info] is its instance at the
      modelled fragment ([get_game_info_modelled]). *)

From Stdlib Require Import List String Ascii ZArith Bool Lia Arith.
From Stdlib Require Import DecimalString DecimalPos DecimalZ.
Import ListNotations.

Local Open Scope string_scope.
Local Open Scope list_scope.

(** ** Python outcomes *)

(** The exceptions the modelled calls can raise, by class; [ServiceError]
    stands for what a failed call to the model service raises. *)
Inductive exn : Type :=
| KeyError (key : string)
| IndexError
| ReError
| OverflowError
| ServiceError (detail : string).

(** [type(e).__name__] (with its module for [re.error]). *)
Definition exn_class (e : exn) : string :=
  match e with
  | KeyError _ => "KeyError"
  | IndexError => "IndexError"
  | ReError => "re.error"
  | OverflowError => "OverflowError"
  | ServiceError _ => "APIError"
  end.

Inductive outcome (A : Type) : Type :=
| Ok (a : A)
| Raise (e : exn)
| Unmodelled.
Arguments Ok {A} a.
Arguments Raise {A} e.
Arguments Unmodelled {A}.

Definition bind {A B : Type} (m : outcome A) (k : A -> outcome B) : outcome B :=
  match m with
  | Ok a => k a
  | Raise e => Raise e
  | Unmodelled => Unmodelled
  end.

Notation "x <- m ;; k" := (bind m (fun x => k))
  (at level 61, m at next level, right associativity).

(** [l[0]] on a Python list. *)
Definition index0 {A : Type} (l : list A) : outcome A :=
  match l with
  | [] => Raise IndexError
  | x :: _ => Ok x
  end.

(** ** Strings *)

Definition quote_char : ascii := "034"%char.
Definition backslash : ascii := "092"%char.
Definition newline : ascii := "010"%char.

(** The characters that [str.lower] and [re.IGNORECASE] change: A-Z, and
    the capital letters of code points 192-222 (215, the multiplication
    sign, is not a letter). *)
Definition is_upper (c : ascii) : bool :=
  let n := nat_of_ascii c in
  (((65 <=? n) && (n <=? 90)) || ((192 <=? n) && (n <=? 214))
   || ((216 <=? n) && (n <=? 222)))%nat.

Definition is_ascii_alnum (c : ascii) : bool :=
  let n := nat_of_ascii c in
  (((48 <=? n) && (n <=? 57)) || ((65 <=? n) && (n <=? 90))
   || ((97 <=? n) && (n <=? 122)))%nat.

(** Case folding of one character: a capital letter goes to its small
    letter, 32 code points up; every other character stays. *)
Definition lower_char (c : ascii) : ascii :=
  if is_upper c then ascii_of_nat (nat_of_ascii c + 32) else c.

Definition lower (s : list ascii) : list ascii := map lower_char s.

Definition chars (s : string) : list ascii := list_ascii_of_string s.

(** [sep.join(parts)]. *)
Fixpoint join (sep : string) (parts : list string) : string :=
  match parts with
  | [] => ""
  | [p] => p
  | p :: rest => p ++ sep ++ join sep rest
  end.

(** [str(n)] for a Python int. *)
Definition str_of_Z (z : Z) : string := NilZero.string_of_int (Z.to_int z).

(** ** [json.dumps] on the two shapes the tools serialise *)

Inductive jval : Type :=
| JStr (s : string)
| JInt (z : Z).

Definition hex_digit (n : nat) : ascii :=
  if (n <? 10)%nat then ascii_of_nat (48 + n) else ascii_of_nat (87 + n).

(** [json.encoder.py_encode_basestring_ascii] on one character: the quote
    and the backslash are escaped, the short escapes are used for
    backspace, form feed, newline, carriage return and tab, and every other
    character outside space..tilde becomes a [\u00xx] escape. *)
Definition json_escape_char (c : ascii) : string :=
  let n := nat_of_ascii c in
  let bs := String backslash "" in
  if Nat.eqb n 34 then bs ++ String quote_char ""
  else if Nat.eqb n 92 then bs ++ bs
  else if Nat.eqb n 8 then bs ++ "b"
  else if Nat.eqb n 12 then bs ++ "f"
  else if Nat.eqb n 10 then bs ++ "n"
  else if Nat.eqb n 13 then bs ++ "r"
  else if Nat.eqb n 9 then bs ++ "t"
  else if ((32 <=? n) && (n <=? 126))%nat then String c ""
  else bs ++ "u00" ++ String (hex_digit (n / 16)) (String (hex_digit (n mod 16)) "").

Fixpoint json_escape (s : string) : string :=
  match s with
  | EmptyString => ""
  | String c rest => json_escape_char c ++ json_escape rest
  end.

Definition json_string (s : string) : string :=
  String quote_char (json_escape s) ++ String quote_char "".

Definition json_value (v : jval) : string :=
  match v with
  | JStr s => json_string s
  | JInt z => str_of_Z z
  end.

Definition json_item (kv : string * jval) : string :=
  json_string (fst kv) ++ ": " ++ json_value (snd kv).

(** [json.dumps(d)] for a flat [dict] with string keys, in insertion order. *)
Definition json_dumps_dict (d : list (string * jval)) : string :=
  "{" ++ join ", " (map json_item d) ++ "}".

(** [json.dumps(l)] for a list of flat dicts. *)
Definition json_dumps_records (l : list (list (string * jval))) : string :=
  "[" ++ join ", " (map json_dumps_dict l) ++ "]".

(** ** Regular expressions: the fragment of Python's [re] that is modelled

    [Series.str.contains(pat, case=False, na=False)] keeps pandas' default
    [regex=True]: pandas calls [re.compile(pat, flags=re.IGNORECASE)] and
    tests each string with [regex.search(x)].

    The fragment: literal characters, [.], a backslash before a character
    that is not an ASCII letter or digit, the greedy repeats [*], [+] and
    [?], alternation and capturing groups.  Character classes, braces,
    anchors, backslash-letter and backslash-digit escapes, group
    extensions, and lazy or possessive repeats are left [OutOfFragment].
    A pattern [re.compile] rejects with [re.error] is a [ParseError]; the
    message is not modelled. *)

Inductive regex : Type :=
| RFail
| REps
| RChar (c : ascii)
| RAny
| RSeq (r1 r2 : regex)
| RAlt (r1 r2 : regex)
| RStar (r : regex).

Inductive parse_result : Type :=
| Parsed (r : regex)
| ParseError
| OutOfFragment.

(** The items of one branch, last item first, as a sequence. *)
Definition mk_branch (items : list regex) : regex :=
  fold_left (fun acc it => RSeq it acc) items REps.

(** The branches of one group, last branch first, as an alternation;
    [last] is the branch that was open when the group ended. *)
Definition mk_alt (alts : list regex) (last : regex) : regex :=
  fold_left (fun acc a => RAlt a acc) alts last.

Definition apply_repeat (c : ascii) (r : regex) : regex :=
  if Ascii.eqb c "*" then RStar r
  else if Ascii.eqb c "+" then RSeq r (RStar r)
  else RAlt r REps.

Definition is_repeat_char (c : ascii) : bool :=
  Ascii.eqb c "*" || Ascii.eqb c "+" || Ascii.eqb c "?".

(** The characters of [sre_parse.SPECIAL_CHARS]. *)
Definition is_special_char (c : ascii) : bool :=
  Ascii.eqb c "." || Ascii.eqb c backslash || Ascii.eqb c "[" || Ascii.eqb c "{"
  || Ascii.eqb c "(" || Ascii.eqb c ")" || Ascii.eqb c "*" || Ascii.eqb c "+"
  || Ascii.eqb c "?" || Ascii.eqb c "^" || Ascii.eqb c "$" || Ascii.eqb c "|".

(** One pass over the pattern, left to right, as [sre_parse] reads it.
    [stack] holds the enclosing groups (their finished branches and the
    items of their open branch), [alts] the finished branches of the
    current group, [items] the items of the open branch, and
    [after_repeat] tells that the last item was just given a repeat. *)
Fixpoint re_parse_loop (s : string) (stack : list (list regex * list regex))
    (alts items : list regex) (after_repeat : bool) : parse_result :=
  match s with
  | EmptyString =>
      match stack with
      | [] => Parsed (mk_alt alts (mk_branch items))
      | _ :: _ => ParseError (* missing ), unterminated subpattern *)
      end
  | String c rest =>
      if Ascii.eqb c backslash then
        match rest with
        | EmptyString => ParseError (* bad escape (end of pattern) *)
        | String d rest' =>
            if is_ascii_alnum d then OutOfFragment
            else re_parse_loop rest' stack alts (RChar d :: items) false
        end
      else if Ascii.eqb c "." then
        re_parse_loop rest stack alts (RAny :: items) false
      else if Ascii.eqb c "|" then
        re_parse_loop rest stack (mk_branch items :: alts) [] false
      else if Ascii.eqb c "(" then
        match rest with
        | String "?" _ => OutOfFragment
        | _ => re_parse_loop rest ((alts, items) :: stack) [] [] false
        end
      else if Ascii.eqb c ")" then
        match stack with
        | [] => ParseError (* unbalanced parenthesis *)
        | (alts', items') :: stack' =>
            re_parse_loop rest stack' alts'
              (mk_alt alts (mk_branch items) :: items') false
        end
      else if is_repeat_char c then
        if after_repeat then
          if Ascii.eqb c "*" then ParseError (* multiple repeat *)
          else OutOfFragment
        else
          match items with
          | [] => ParseError (* nothing to repeat *)
          | it :: items' =>
              re_parse_loop rest stack alts (apply_repeat c it :: items') true
          end
      else if is_special_char c then OutOfFragment
      else re_parse_loop rest stack alts (RChar c :: items) false
  end.

Definition re_parse (pat : string) : parse_result :=
  re_parse_loop pat [] [] [] false.

(** Matching under [re.IGNORECASE]: by Brzozowski derivatives. *)

Definition ci_eqb (a b : ascii) : bool :=
  Ascii.eqb (lower_char a) (lower_char b).

Fixpoint nullable (r : regex) : bool :=
  match r with
  | RFail => false
  | REps => true
  | RChar _ => false
  | RAny => false
  | RSeq a b => nullable a && nullable b
  | RAlt a b => nullable a || nullable b
  | RStar _ => true
  end.

Fixpoint deriv (c : ascii) (r : regex) : regex :=
  match r with
  | RFail => RFail
  | REps => RFail
  | RChar a => if ci_eqb a c then REps else RFail
  | RAny => if Ascii.eqb c newline then RFail else REps
  | RSeq a b =>
      if nullable a then RAlt (RSeq (deriv c a) b) (deriv c b)
      else RSeq (deriv c a) b
  | RAlt a b => RAlt (deriv c a) (deriv c b)
  | RStar a => RSeq (deriv c a) (RStar a)
  end.

(** Some prefix of [s] is matched by [r]: [regex.match(s) is not None]. *)
Fixpoint re_match_prefix (r : regex) (s : list ascii) : bool :=
  nullable r ||
  match s with
  | [] => false
  | c :: s' => re_match_prefix (deriv c r) s'
  end.

(** [regex.search(s) is not None]: a match that starts at some position. *)
Fixpoint re_search (r : regex) (s : list ascii) : bool :=
  re_match_prefix r s ||
  match s with
  | [] => false
  | _ :: s' => re_search r s'
  end.

(** The strings a regular expression matches, letter case ignored. *)
Inductive re_lang : regex -> list ascii -> Prop :=
| L_eps : re_lang REps []
| L_char a c : ci_eqb a c = true -> re_lang (RChar a) [c]
| L_any c : Ascii.eqb c newline = false -> re_lang RAny [c]
| L_seq a b s t : re_lang a s -> re_lang b t -> re_lang (RSeq a b) (s ++ t)
| L_alt_l a b s : re_lang a s -> re_lang (RAlt a b) s
| L_alt_r a b s : re_lang b s -> re_lang (RAlt a b) s
| L_star_nil a : re_lang (RStar a) []
| L_star_cons a s t :
    re_lang a s -> re_lang (RStar a) t -> re_lang (RStar a) (s ++ t).

(** ** The data provider ([statsapi]) *)

(** Modelled from the spec: the type of one entry of
    [statsapi.schedule(start_date, end_date)] is declared by the MLB-StatsAPI
    package, not by the notebook.  The spec (External interfaces) fixes its
    shape: a game summary with team names, scores and a winner; the fields
    are the columns [get_game_info] reads.  A [summary] of [None] stands for
    a missing value (what [na=False] is about). *)
Record game : Type := {
  game_id : Z;
  summary : option string;
  home_name : string;
  home_score : Z;
  away_name : string;
  away_score : Z;
  winning_team : string;
  series_status : string
}.

(** Modelled from the spec: the per-side participant records of
    [statsapi.boxscore_data(game_id)] (declared by MLB-StatsAPI): the
    columns the two detail fetchers read. *)
Record batter_row : Type := {
  b_name : string;
  b_position : string;
  b_ab : string;
  b_r : string;
  b_h : string;
  b_hr : string;
  b_rbi : string;
  b_bb : string;
  b_sb : string
}.

Record pitcher_row : Type := {
  p_name : string;
  p_ip : string;
  p_h : string;
  p_r : string;
  p_er : string;
  p_bb : string;
  p_k : string;
  p_note : string
}.

Record player_info : Type := {
  fullName : string;
  boxscoreName : string
}.

Record team_info : Type := { teamName : string }.

(** [boxscores['playerInfo']] is a dict keyed by player id, kept in
    insertion order. *)
Record boxscore : Type := {
  playerInfo : list (string * player_info);
  awayBatters : list batter_row;
  homeBatters : list batter_row;
  awayPitchers : list pitcher_row;
  homePitchers : list pitcher_row;
  teamInfo_away : team_info;
  teamInfo_home : team_info
}.

(** The two calls the tools make; each may raise. *)
Record statsapi : Type := {
  schedule : string -> string -> outcome (list game);
  boxscore_data : string -> outcome boxscore
}.

(** ** The pandas operations the tools use *)

(** One element of [Series.str.contains(pat, case=False, na=False)], [pat]
    compiled: a missing value gives [na]. *)
Definition contains_compiled (r : regex) (x : option string) : bool :=
  match x with
  | None => false
  | Some s => re_search r (chars s)
  end.

(** [sched_df[sched_df['summary'].str.contains(team_name, case=False, na=False)]]:
    a frame built from an empty list has no column [summary]; the pattern is
    compiled before any row is tested; the rows kept stay in their order. *)
Definition filter_by_summary (sched : list game) (team_name : string)
  : outcome (list game) :=
  match sched with
  | [] => Raise (KeyError "summary")
  | _ :: _ =>
      match re_parse team_name with
      | Parsed r => Ok (filter (fun g => contains_compiled r (summary g)) sched)
      | ParseError => Raise ReError
      | OutOfFragment => Unmodelled
      end
  end.

(** [left.merge(right, left_on=.., right_on=..)]: the default inner join on
    equal keys, in the order of the left rows and, for one left row, of the
    right rows (the documented order of [how='inner']). *)
Definition merge_inner {L R : Type} (lkey : L -> string) (rkey : R -> string)
    (left : list L) (right : list R) : list (L * R) :=
  flat_map
    (fun l => map (pair l) (filter (fun r => String.eqb (lkey l) (rkey r)) right))
    left.

(** [merge] looks both key columns up first.  The left frame (the two
    per-side frames concatenated) has the column [name] unless both raw
    tables were empty; the player-info frame has [boxscoreName] unless the
    [playerInfo] dict was empty. *)
Definition merge_keys_check {A : Type} (raw_away raw_home : list A)
    (pinfo : list (string * player_info)) : outcome unit :=
  match pinfo with
  | [] => Raise (KeyError "boxscoreName")
  | _ :: _ =>
      match raw_away, raw_home with
      | [], [] => Raise (KeyError "name")
      | _, _ => Ok tt
      end
  end.

(** [df.iloc[1:]]. *)
Definition iloc_from_1 {A : Type} (rows : list A) : list A := tl rows.

(** [df['team_name'] = t]: every row carries the team name. *)
Definition with_team_name {A : Type} (t : string) (rows : list A)
  : list (string * A) :=
  map (pair t) rows.

(** ** The tools (cell 19) *)

Definition get_game_info (api : statsapi) (game_date team_name : string)
  : outcome string :=
  sched <- schedule api game_date game_date ;;
  game_info_df <- filter_by_summary sched team_name ;;
  gid <- index0 (map game_id game_info_df) ;;
  hn <- index0 (map home_name game_info_df) ;;
  hs <- index0 (map home_score game_info_df) ;;
  an <- index0 (map away_name game_info_df) ;;
  asc <- index0 (map away_score game_info_df) ;;
  wt <- index0 (map winning_team game_info_df) ;;
  ss <- index0 (map series_status game_info_df) ;;
  Ok (json_dumps_dict
        [ ("game_id", JStr (str_of_Z gid));
          ("home_team", JStr hn);
          ("home_score", JInt hs);
          ("away_team", JStr an);
          ("away_score", JInt asc);
          ("winning_team", JStr wt);
          ("series_status", JStr ss) ]).

(** One record of [batters_box_df[[...]].to_dict(orient='records')]. *)
Definition batting_record (row : (string * batter_row) * (string * player_info))
  : list (string * jval) :=
  let '((team, b), (_, p)) := row in
  [ ("team_name", JStr team); ("fullName", JStr (fullName p));
    ("position", JStr (b_position b)); ("ab", JStr (b_ab b));
    ("r", JStr (b_r b)); ("h", JStr (b_h b)); ("hr", JStr (b_hr b));
    ("rbi", JStr (b_rbi b)); ("bb", JStr (b_bb b)); ("sb", JStr (b_sb b)) ].

(** The records [get_batting_stats] serialises. *)
Definition batting_stats_records (boxscores : boxscore)
  : outcome (list (list (string * jval))) :=
  let player_info_df := playerInfo boxscores in
  let away_batters_box :=
    with_team_name (teamName (teamInfo_away boxscores))
      (iloc_from_1 (awayBatters boxscores)) in
  let home_batters_box :=
    with_team_name (teamName (teamInfo_home boxscores))
      (iloc_from_1 (homeBatters boxscores)) in
  _ <- merge_keys_check (awayBatters boxscores) (homeBatters boxscores)
         player_info_df ;;
  let batters_box_df :=
    merge_inner (fun l => b_name (snd l)) (fun r => boxscoreName (snd r))
      (away_batters_box ++ home_batters_box) player_info_df in
  Ok (map batting_record batters_box_df).

Definition get_batting_stats (api : statsapi) (gid : string) : outcome string :=
  boxscores <- boxscore_data api gid ;;
  batting_stats <- batting_stats_records boxscores ;;
  Ok (json_dumps_records batting_stats).

(** One record of [pitchers_box_df[[...]].to_dict(orient='records')]. *)
Definition pitching_record (row : (string * pitcher_row) * (string * player_info))
  : list (string * jval) :=
  let '((team, p), (_, i)) := row in
  [ ("team_name", JStr team); ("fullName", JStr (fullName i));
    ("ip", JStr (p_ip p)); ("h", JStr (p_h p)); ("r", JStr (p_r p));
    ("er", JStr (p_er p)); ("bb", JStr (p_bb p)); ("k", JStr (p_k p));
    ("note", JStr (p_note p)) ].

(** The records [get_pitching_stats] serialises. *)
Definition pitching_stats_records (boxscores : boxscore)
  : outcome (list (list (string * jval))) :=
  let player_info_df := playerInfo boxscores in
  let away_pitchers_box :=
    with_team_name (teamName (teamInfo_away boxscores))
      (iloc_from_1 (awayPitchers boxscores)) in
  let home_pitchers_box :=
    with_team_name (teamName (teamInfo_home boxscores))
      (iloc_from_1 (homePitchers boxscores)) in
  _ <- merge_keys_check (awayPitchers boxscores) (homePitchers boxscores)
         player_info_df ;;
  let pitchers_box_df :=
    merge_inner (fun l => p_name (snd l)) (fun r => boxscoreName (snd r))
      (away_pitchers_box ++ home_pitchers_box) player_info_df in
  Ok (map pitching_record pitchers_box_df).

Definition get_pitching_stats (api : statsapi) (gid : string) : outcome string :=
  boxscores <- boxscore_data api gid ;;
  pitching_stats <- pitching_stats_records boxscores ;;
  Ok (json_dumps_records pitching_stats).

(** ** [get_game_info] with the [re] library as a parameter

    What [re.compile(pat, flags=re.IGNORECASE)] does with a pattern is a
    matter of the [re] library, not of the notebook.  An engine stands for
    it: on a pattern it raises, or it returns the compiled pattern, given by
    what [regex.search(x) is not None] answers on each string.  The tool
    written over an engine says what the notebook's code does with any team
    name, also one outside the fragment of [re_parse]. *)
Definition re_engine : Type := string -> outcome (string -> bool).

(** The engine of the modelled fragment. *)
Definition modelled_re : re_engine :=
  fun pat =>
    match re_parse pat with
    | Parsed r => Ok (fun s => re_search r (chars s))
    | ParseError => Raise ReError
    | OutOfFragment => Unmodelled
    end.

(** One element of [Series.str.contains(pat, case=False, na=False)], for a
    compiled pattern that answers [m]: a missing value gives [na]. *)
Definition contains_with (m : string -> bool) (x : option string) : bool :=
  match x with
  | None => false
  | Some s => m s
  end.

(** Line 159 over an engine: no column [summary] in a frame built from an
    empty list; the pattern is compiled before any row is tested; the rows
    kept stay in their order. *)
Definition filter_by_summary_with (engine : re_engine) (sched : list game)
    (team_name : string) : outcome (list game) :=
  match sched with
  | [] => Raise (KeyError "summary")
  | _ :: _ =>
      m <- engine team_name ;;
      Ok (filter (fun g => contains_with m (summary g)) sched)
  end.

(** Lines 161 to 171: the [game_info] dict, every field read with
    [tolist()[0]] from the filtered frame, and its [json.dumps]. *)
Definition game_info_of (game_info_df : list game) : outcome string :=
  gid <- index0 (map game_id game_info_df) ;;
  hn <- index0 (map home_name game_info_df) ;;
  hs <- index0 (map home_score game_info_df) ;;
  an <- index0 (map away_name game_info_df) ;;
  asc <- index0 (map away_score game_info_df) ;;
  wt <- index0 (map winning_team game_info_df) ;;
  ss <- index0 (map series_status game_info_df) ;;
  Ok (json_dumps_dict
        [ ("game_id", JStr (str_of_Z gid));
          ("home_team", JStr hn);
          ("home_score", JInt hs);
          ("away_team", JStr an);
          ("away_score", JInt asc);
          ("winning_team", JStr wt);
          ("series_status", JStr ss) ]).

Definition get_game_info_with (engine : re_engine) (api : statsapi)
    (game_date team_name : string) : outcome string :=
  sched <- schedule api game_date game_date ;;
  game_info_df <- filter_by_summary_with engine sched team_name ;;
  game_info_of game_info_df.

(** ** Dates ([datetime.date]) *)

Local Open Scope Z_scope.

(** A [date] by its proleptic Gregorian ordinal (0001-01-01 is day 1), a
    [datetime] by its date and the seconds into the day. *)
Definition date : Type := Z.

Record datetime : Type := { dt_date : date; dt_seconds : Z }.

Definition MAXORDINAL : Z := 3652059.

(** [d - timedelta(days)]: [OverflowError] outside 0001-01-01..9999-12-31. *)
Definition date_sub_days (d : date) (days : Z) : outcome date :=
  let o := d - days in
  if (0 <? o) && (o <=? MAXORDINAL) then Ok o else Raise OverflowError.

Definition DI400Y : Z := 146097.
Definition DI100Y : Z := 36524.
Definition DI4Y : Z := 1461.

Definition days_in_month (leap : bool) (month : Z) : Z :=
  if month =? 2 then (if leap then 29 else 28)
  else if (month =? 4) || (month =? 6) || (month =? 9) || (month =? 11) then 30
  else 31.

(** Days of the year before the first day of [month]. *)
Definition days_before_month (leap : bool) (month : Z) : Z :=
  fold_left (fun acc m => acc + days_in_month leap (Z.of_nat m))
    (seq 1 (Z.to_nat month - 1)) 0.

(** [datetime._ord2ymd]. *)
Definition ord2ymd (ordinal : Z) : Z * Z * Z :=
  let n := ordinal - 1 in
  let n400 := n / DI400Y in
  let n := n mod DI400Y in
  let n100 := n / DI100Y in
  let n := n mod DI100Y in
  let n4 := n / DI4Y in
  let n := n mod DI4Y in
  let n1 := n / 365 in
  let n := n mod 365 in
  let year := n400 * 400 + 1 + n100 * 100 + n4 * 4 + n1 in
  if (n1 =? 4) || (n100 =? 4) then (year - 1, 12, 31)
  else
    let leapyear := (n1 =? 3) && (negb (n4 =? 24) || (n100 =? 3)) in
    let month := Z.shiftr (n + 50) 5 in
    let preceding := days_before_month leapyear month in
    if preceding >? n then
      let month := month - 1 in
      let preceding := preceding - days_in_month leapyear month in
      (year, month, n - preceding + 1)
    else (year, month, n - preceding + 1).

(** [%0*d]: decimal digits of a non-negative number, zero-padded. *)
Definition zero_pad (width : nat) (n : Z) : string :=
  let s := str_of_Z n in
  (fix pad (k : nat) : string :=
     match k with
     | O => s
     | S k' => ("0" ++ pad k')%string
     end) (width - String.length s)%nat.

(** [str(d)], which an f-string uses: [date.isoformat]. *)
Definition isoformat (d : date) : string :=
  let '(y, m, dd) := ord2ymd d in
  (zero_pad 4 y ++ "-" ++ zero_pad 2 m ++ "-" ++ zero_pad 2 dd)%string.

Local Close Scope Z_scope.

(** ** Assistants (cells 17, 18 and 20) *)

Record Groq : Type := { model : string; api_key : option string }.

Inductive tool : Type := get_game_info_tool | get_batting_stats_tool
                       | get_pitching_stats_tool.

Record Assistant : Type := {
  llm : Groq;
  description : string;
  instructions : list string;
  tools : list tool
}.

Definition llm_llama70b (key : option string) : Groq :=
  {| model := "llama3-70b-8192"; api_key := key |}.
Definition llm_llama8b (key : option string) : Groq :=
  {| model := "llama3-groq-8b-8192-tool-use-preview"; api_key := key |}.
Definition llm_gemma2 (key : option string) : Groq :=
  {| model := "gemma2-9b-it"; api_key := key |}.
Definition llm_mixtral (key : option string) : Groq :=
  {| model := "mixtral-8x7b-32768"; api_key := key |}.

Definition nl : string := String newline "".

(** The f-string of the researcher's first instruction, for a default date. *)
Definition researcher_date_instruction (d : date) : string :=
  "Parse the Team and date (use " ++ isoformat d
  ++ " if user does not specify) from the user question.".

(** The names cell 20 binds. *)
Record agents : Type := {
  default_date : date;
  mlb_researcher : Assistant;
  mlb_batting_statistician : Assistant;
  mlb_pitching_statistician : Assistant;
  mlb_writer_llama : Assistant;
  mlb_writer_gemma : Assistant;
  mlb_writer_mixtral : Assistant;
  mlb_editor : Assistant
}.

(** The seven [Assistant(...)] constructions of cell 20, for the value of
    [default_date] its first line computed. *)
Definition define_agents (key : option string) (default_date : date) : agents :=
  {|
    default_date := default_date;
    mlb_researcher := {|
      llm := llm_mixtral key;
      description := "An detailed accurate MLB researcher extracts game information from the user question";
      instructions := [
        researcher_date_instruction default_date;
        "Pass to your get_game_info tool";
        (nl ++ "        Respond in the following format:"
        ++ nl ++ "            game_id: game_id"
        ++ nl ++ "            home_team: home_team"
        ++ nl ++ "            home_score: home_score"
        ++ nl ++ "            away_team: away_team"
        ++ nl ++ "            away_score: away_score"
        ++ nl ++ "            winning_team: winning_team"
        ++ nl ++ "            series_status: series_status"
        ++ nl ++ "        ")%string ];
      tools := [get_game_info_tool] |};
    mlb_batting_statistician := {|
      llm := llm_mixtral key;
      description := "An industrious MLB Statistician analyzing player boxscore stats for the relevant game";
      instructions := [
        "Given information about a MLB game, retrieve ONLY boxscore player batting stats for the game identified by the MLB Researcher";
        "Your analysis should be atleast 500 words long, and include inning-by-inning statistical summaries" ];
      tools := [get_batting_stats_tool] |};
    mlb_pitching_statistician := {|
      llm := llm_mixtral key;
      description := "An industrious MLB Statistician analyzing player boxscore stats for the relevant game";
      instructions := [
        "Given information about a MLB game, retrieve ONLY boxscore player pitching stats for a specific game";
        "Your analysis should be atleast 500 words long, and include inning-by-inning statistical summaries" ];
      tools := [get_pitching_stats_tool] |};
    mlb_writer_llama := {|
      llm := llm_llama70b key;
      description := "An experienced, honest, and industrious writer who does not make things up";
      instructions := [
        (nl ++ "            Write a game recap article using the provided game information and stats."
        ++ nl ++ "            Key instructions:"
        ++ nl ++ "            - Include things like final score, top performers and winning/losing pitcher."
        ++ nl ++ "            - Use ONLY the provided data and DO NOT make up any information, such as specific innings when events occurred, that isn't explicitly from the provided input."
        ++ nl ++ "            - Do not print the box score"
        ++ nl ++ "        ")%string;
        "Your recap from the stats should be at least 1000 words. Impress your readers!!!" ];
      tools := [] |};
    mlb_writer_gemma := {|
      llm := llm_gemma2 key;
      description := "An experienced and honest writer who does not make things up";
      instructions := [
        "Write a detailed game recap article using the provided game information and stats" ];
      tools := [] |};
    mlb_writer_mixtral := {|
      llm := llm_mixtral key;
      description := "An experienced and honest writer who does not make things up";
      instructions := [
        "Write a detailed game recap article using the provided game information and stats" ];
      tools := [] |};
    mlb_editor := {|
      llm := llm_llama70b key;
      description := "An experienced editor that excels at taking the best parts of multiple texts to create the best final product";
      instructions := [ "Edit recap articles to create the best final product." ];
      tools := [] |}
  |}.

(** Cell 20, run when the clock reads [now], with the key cell 17 read from
    the environment: [default_date = datetime.now().date() - timedelta(1)],
    then the assistants. *)
Definition cell_20 (key : option string) (now : datetime) : outcome agents :=
  default_date <- date_sub_days (dt_date now) 1 ;;
  Ok (define_agents key default_date).

(** Cell 21. *)
Definition user_prompt : string :=
  "write a recap of the Yankees game on July 14, 2024".

(** ** Running assistants (cell 22)

    [Assistant.run(message, stream=False)] is phidata's: it sends the
    assistant's configuration and the message to the model service and
    returns the reply as a [str], or the call raises.  What the service
    answers is a parameter, [service]; the run of a cell is traced in a
    [world]: the clock, the calls made so far and what was printed. *)

Definition service : Type := Assistant -> string -> outcome string.

Record world : Type := {
  clock : datetime;
  calls : list (Assistant * string);
  stdout : list string
}.

(** A cell: from a world to its outcome and the world it leaves. *)
Definition cell (A : Type) : Type := world -> outcome A * world.

Definition cell_ret {A : Type} (a : A) : cell A := fun w => (Ok a, w).

Definition cell_bind {A B : Type} (m : cell A) (k : A -> cell B) : cell B :=
  fun w =>
    match m w with
    | (Ok a, w') => k a w'
    | (Raise e, w') => (Raise e, w')
    | (Unmodelled, w') => (Unmodelled, w')
    end.

Notation "x <~ m ;; k" := (cell_bind m (fun x => k))
  (at level 61, m at next level, right associativity).

(** The world after one more call. *)
Definition record_call (w : world) (a : Assistant) (message : string) : world :=
  {| clock := clock w; calls := calls w ++ [(a, message)]; stdout := stdout w |}.

(** [a.run(message, stream=False)]. *)
Definition run (svc : service) (a : Assistant) (message : string) : cell string :=
  fun w => (svc a message, record_call w a message).

(** [print(text)]. *)
Definition print (text : string) : cell unit :=
  fun w =>
    (Ok tt,
     {| clock := clock w; calls := calls w; stdout := stdout w ++ [text] |}).

(** The f-string that builds [stats]. *)
Definition stats_text (batting_stats pitching_stats : string) : string :=
  "Statistical summaries for the game:" ++ nl ++ nl ++ "Batting stats:" ++ nl
  ++ batting_stats ++ nl ++ nl ++ "Pitching stats:" ++ nl ++ pitching_stats.

(** The names cell 22 binds. *)
Record recap : Type := {
  game_information : string;
  batting_stats : string;
  pitching_stats : string;
  stats : string;
  llama_writer : string;
  gemma_writer : string;
  mixtral_writer : string;
  editor_inputs : list string;
  editor : string
}.

Definition cell_22 (svc : service) (ag : agents) (user_prompt : string)
  : cell recap :=
  game_information <~ run svc (mlb_researcher ag) user_prompt ;;
  batting_stats <~ run svc (mlb_batting_statistician ag) game_information ;;
  pitching_stats <~ run svc (mlb_pitching_statistician ag) game_information ;;
  let stats := stats_text batting_stats pitching_stats in
  llama_writer <~ run svc (mlb_writer_llama ag) stats ;;
  gemma_writer <~ run svc (mlb_writer_gemma ag) stats ;;
  mixtral_writer <~ run svc (mlb_writer_mixtral ag) stats ;;
  let editor_inputs := [llama_writer; gemma_writer; mixtral_writer] in
  editor <~ run svc (mlb_editor ag) (join nl editor_inputs) ;;
  _ <~ print editor ;;
  cell_ret {|
    game_information := game_information;
    batting_stats := batting_stats;
    pitching_stats := pitching_stats;
    stats := stats;
    llama_writer := llama_writer;
    gemma_writer := gemma_writer;
    mixtral_writer := mixtral_writer;
    editor_inputs := editor_inputs;
    editor := editor
  |}.

(** The notebook from cell 20 on: the agents are defined when the clock
    reads [setup_time]; cell 22 runs later, from the world [w]. *)
Definition notebook (key : option string) (setup_time : datetime)
    (svc : service) (prompt : string) (w : world) : outcome recap * world :=
  match cell_20 key setup_time with
  | Ok ag => cell_22 svc ag prompt w
  | Raise e => (Raise e, w)
  | Unmodelled => (Unmodelled, w)
  end.

(** ** The provider as a service that is called

    [statsapi.schedule] is a request to a remote service.  A [provider] is
    that service as a call meets it: what it answers at that moment, the
    schedule requests it has received so far, and the time.  One invocation
    of [get_game_info] is a step on this state; between two invocations the
    state may have become any other. *)
Record provider : Type := {
  answers : statsapi;
  received : list (string * string);
  at_time : datetime
}.

Definition call (A : Type) : Type := provider -> outcome A * provider.

(** [statsapi.schedule(start_date=.., end_date=..)]: the request reaches the
    provider, which answers with its data of that moment. *)
Definition statsapi_schedule (start_date end_date : string) : call (list game) :=
  fun p =>
    (schedule (answers p) start_date end_date,
     {| answers := answers p;
        received := received p ++ [(start_date, end_date)];
        at_time := at_time p |}).

(** One invocation of [get_game_info] against the provider. *)
Definition get_game_info_call (engine : re_engine) (game_date team_name : string)
  : call string :=
  fun p =>
    let (answer, p') := statsapi_schedule game_date game_date p in
    (sched <- answer ;;
     game_info_df <- filter_by_summary_with engine sched team_name ;;
     game_info_of game_info_df,
     p').

(** ** The spec's reading of the team-name match

    Section 4.1 of the spec reads the match as a case-insensitive substring
    test: the fragment occurs in the summary when letter case is ignored.
    This is that reading, to be compared with [contains_compiled]. *)

Fixpoint is_prefix (p s : list ascii) : bool :=
  match p, s with
  | [], _ => true
  | _ :: _, [] => false
  | a :: p', b :: s' => Ascii.eqb a b && is_prefix p' s'
  end.

Fixpoint is_substring (p s : list ascii) : bool :=
  is_prefix p s ||
  match s with
  | [] => false
  | _ :: s' => is_substring p s'
  end.

Definition substring_ci (fragment : string) (x : option string) : bool :=
  match x with
  | None => false
  | Some s => is_substring (lower (chars fragment)) (lower (chars s))
  end.

(** A fragment none of whose characters is special to [re]. *)
Definition plain_fragment (fragment : string) : Prop :=
  Forall (fun c => is_special_char c = false) (chars fragment).

(** The expression a pattern of plain characters stands for: its
    characters in sequence. *)
Definition literal_regex (cs : list ascii) : regex :=
  fold_right (fun c r => RSeq (RChar c) r) REps cs.

(** The context document all of whose fields are read from one schedule
    row. *)
Definition context_document (g : game) : string :=
  json_dumps_dict
    [ ("game_id", JStr (str_of_Z (game_id g)));
      ("home_team", JStr (home_name g));
      ("home_score", JInt (home_score g));
      ("away_team", JStr (away_name g));
      ("away_score", JInt (away_score g));
      ("winning_team", JStr (winning_team g));
      ("series_status", JStr (series_status g)) ].

(** A boxscore with other batters' tables, and with other pitchers'
    tables. *)
Definition with_batters (b : boxscore) (away home : list batter_row) : boxscore :=
  {| playerInfo := playerInfo b;
     awayBatters := away; homeBatters := home;
     awayPitchers := awayPitchers b; homePitchers := homePitchers b;
     teamInfo_away := teamInfo_away b; teamInfo_home := teamInfo_home b |}.

Definition with_pitchers (b : boxscore) (away home : list pitcher_row) : boxscore :=
  {| playerInfo := playerInfo b;
     awayBatters := awayBatters b; homeBatters := homeBatters b;
     awayPitchers := away; homePitchers := home;
     teamInfo_away := teamInfo_away b; teamInfo_home := teamInfo_home b |}.

(** ** Sample data *)

Definition sample_game_nyy : game := {|
  game_id := 745123;
  summary := Some "2024-07-14 - New York Yankees (5) @ Baltimore Orioles (6) (Final)";
  home_name := "Baltimore Orioles";
  home_score := 6;
  away_name := "New York Yankees";
  away_score := 5;
  winning_team := "Baltimore Orioles";
  series_status := "BAL wins 2-1"
|}.

Definition sample_game_nym : game := {|
  game_id := 745204;
  summary := Some "2024-07-14 - Colorado Rockies (3) @ New York Mets (7) (Final)";
  home_name := "New York Mets";
  home_score := 7;
  away_name := "Colorado Rockies";
  away_score := 3;
  winning_team := "New York Mets";
  series_status := "NYM wins 2-1"
|}.

Definition sample_game_bos : game := {|
  game_id := 745365;
  summary := Some "2024-07-14 - Kansas City Royals (4) @ Boston Red Sox (5) (Final)";
  home_name := "Boston Red Sox";
  home_score := 5;
  away_name := "Kansas City Royals";
  away_score := 4;
  winning_team := "Boston Red Sox";
  series_status := "BOS wins 2-1"
|}.

Definition sample_schedule : list game :=
  [sample_game_nym; sample_game_nyy; sample_game_bos].

Definition sample_batter (name pos ab h : string) : batter_row := {|
  b_name := name; b_position := pos; b_ab := ab; b_r := "0"; b_h := h;
  b_hr := "0"; b_rbi := "0"; b_bb := "0"; b_sb := "0"
|}.

Definition sample_pitcher (name ip k : string) : pitcher_row := {|
  p_name := name; p_ip := ip; p_h := "2"; p_r := "2"; p_er := "2";
  p_bb := "1"; p_k := k; p_note := ""
|}.

(** A boxscore whose tables start with a header row; [Soto] and [Cole] have
    a player-info entry, [Ghost] and [Nobody] have none. *)
Definition sample_boxscore : boxscore := {|
  playerInfo :=
    [ ("ID665742", {| fullName := "Juan Soto"; boxscoreName := "Soto" |});
      ("ID668939", {| fullName := "Adley Rutschman"; boxscoreName := "Rutschman" |});
      ("ID543037", {| fullName := "Gerrit Cole"; boxscoreName := "Cole" |}) ];
  awayBatters :=
    [ sample_batter "Yankees Batters" "" "AB" "H";
      sample_batter "Soto" "RF" "4" "2";
      sample_batter "Ghost" "PH" "1" "0" ];
  homeBatters :=
    [ sample_batter "Orioles Batters" "" "AB" "H";
      sample_batter "Rutschman" "C" "4" "1" ];
  awayPitchers :=
    [ sample_pitcher "Yankees Pitchers" "IP" "K";
      sample_pitcher "Cole" "6.0" "7" ];
  homePitchers :=
    [ sample_pitcher "Orioles Pitchers" "IP" "K";
      sample_pitcher "Nobody" "1.0" "1" ];
  teamInfo_away := {| teamName := "Yankees" |};
  teamInfo_home := {| teamName := "Orioles" |}
|}.

Definition sample_api : statsapi := {|
  schedule := fun _ _ => Ok sample_schedule;
  boxscore_data := fun _ => Ok sample_boxscore
|}.

(** The same schedule behind a provider that knows no boxscore. *)
Definition sample_api_no_boxscore : statsapi := {|
  schedule := fun _ _ => Ok sample_schedule;
  boxscore_data := fun _ => Raise (KeyError "teams")
|}.

(** 2024-07-15 and 2024-07-20, at noon. *)
Definition sample_setup_time : datetime :=
  {| dt_date := 739082%Z; dt_seconds := 43200%Z |}.
Definition sample_later_time : datetime :=
  {| dt_date := 739087%Z; dt_seconds := 43200%Z |}.

Definition sample_agents : agents := define_agents None 739081%Z.

Definition sample_world : world :=
  {| clock := sample_later_time; calls := []; stdout := [] |}.

(** A prompt that names no date. *)
Definition sample_prompt_no_date : string :=
  "write a recap of the latest Yankees game".

(** The sample boxscore with an empty [playerInfo] dict. *)
Definition sample_boxscore_no_players : boxscore := {|
  playerInfo := [];
  awayBatters := awayBatters sample_boxscore;
  homeBatters := homeBatters sample_boxscore;
  awayPitchers := awayPitchers sample_boxscore;
  homePitchers := homePitchers sample_boxscore;
  teamInfo_away := teamInfo_away sample_boxscore;
  teamInfo_home := teamInfo_home sample_boxscore
|}.

Definition sample_api_no_players : statsapi := {|
  schedule := fun _ _ => Ok sample_schedule;
  boxscore_data := fun _ => Ok sample_boxscore_no_players
|}.

(** The sample boxscore with batters' tables only. *)
Definition sample_boxscore_batters_only : boxscore :=
  with_pitchers sample_boxscore [] [].

(** A team name and a summary with a letter beyond ASCII, in small and in
    capital form (code points 233 and 201). *)
Definition sample_team_latin : string :=
  String "j" (String "o" (String "s" (String "233" ""))).

Definition sample_game_latin : game := {|
  game_id := 745777;
  summary :=
    Some ("2024-07-14 - JOS" ++ String "201" " Stars (2) @ Boston Red Sox (5) (Final)")%string;
  home_name := "Boston Red Sox";
  home_score := 5;
  away_name := "Stars";
  away_score := 2;
  winning_team := "Boston Red Sox";
  series_status := "BOS wins 1-0"
|}.

(** The provider when the tool is first invoked, and five days later, after
    other requests, with the same schedule for 2024-07-14. *)
Definition sample_provider : provider :=
  {| answers := sample_api; received := []; at_time := sample_setup_time |}.

Definition sample_provider_later : provider :=
  {| answers := sample_api_no_boxscore;
     received := [("2024-07-14", "2024-07-14"); ("2024-07-18", "2024-07-18")];
     at_time := sample_later_time |}.

(** A service that answers every call. *)
Definition svc_all_ok : service :=
  fun a _ => Ok ("reply of " ++ model (llm a))%string.

(** A service on which every call to the model [bad] fails. *)
Definition svc_failing (bad : string) : service :=
  fun a _ =>
    if String.eqb (model (llm a)) bad then Raise (ServiceError "503 Service Unavailable")
    else Ok ("reply of " ++ model (llm a))%string.

(** ** Notions used by the further properties *)

(** [s.lower()]. *)
Fixpoint lower_string (s : string) : string :=
  match s with
  | EmptyString => EmptyString
  | String c rest => String (lower_char c) (lower_string rest)
  end.

(** A regular expression with its literal characters case-folded. *)
Fixpoint regex_lower (r : regex) : regex :=
  match r with
  | RFail => RFail
  | REps => REps
  | RChar c => RChar (lower_char c)
  | RAny => RAny
  | RSeq a b => RSeq (regex_lower a) (regex_lower b)
  | RAlt a b => RAlt (regex_lower a) (regex_lower b)
  | RStar a => RStar (regex_lower a)
  end.

Definition result_lower (p : parse_result) : parse_result :=
  match p with
  | Parsed r => Parsed (regex_lower r)
  | ParseError => ParseError
  | OutOfFragment => OutOfFragment
  end.


(** The characters of [str(n)]: the minus sign and the digits. *)
Definition int_char (c : ascii) : bool :=
  Ascii.eqb c "-" || (let n := nat_of_ascii c in ((48 <=? n) && (n <=? 57))%nat).

Definition hex_value (c : ascii) : option nat :=
  let n := nat_of_ascii c in
  if ((48 <=? n) && (n <=? 57))%nat then Some (n - 48)
  else if ((97 <=? n) && (n <=? 102))%nat then Some (n - 87)
  else None.

(** Reading back the first character of escaped text: [None] at the end of
    the text and on a bare quote, which no escaped character starts with. *)
Definition json_unescape_head (s : string) : option (ascii * string) :=
  match s with
  | EmptyString => None
  | String c rest =>
      if Ascii.eqb c quote_char then None
      else if Ascii.eqb c backslash then
        match rest with
        | EmptyString => None
        | String e rest' =>
            if Ascii.eqb e quote_char then Some (quote_char, rest')
            else if Ascii.eqb e backslash then Some (backslash, rest')
            else if Ascii.eqb e "b" then Some ("008"%char, rest')
            else if Ascii.eqb e "f" then Some ("012"%char, rest')
            else if Ascii.eqb e "n" then Some ("010"%char, rest')
            else if Ascii.eqb e "r" then Some ("013"%char, rest')
            else if Ascii.eqb e "t" then Some ("009"%char, rest')
            else if Ascii.eqb e "u" then
              match rest' with
              | String "0" (String "0" (String h1 (String h2 rest''))) =>
                  match hex_value h1, hex_value h2 with
                  | Some a, Some b => Some (ascii_of_nat (16 * a + b), rest'')
                  | _, _ => None
                  end
              | _ => None
              end
            else None
        end
      else Some (c, rest)
  end.

(** The open groups of the parser, case-folded. *)
Definition frames_lower (stack : list (list regex * list regex))
  : list (list regex * list regex) :=
  map (fun f => (map regex_lower (fst f), map regex_lower (snd f))) stack.

(** A fragment made of plain characters and dots, as in [St. Louis]. *)
Definition dotted_fragment (fragment : string) : Prop :=
  Forall (fun c => is_special_char c = false \/ c = "."%char) (chars fragment).

(** The item [re_parse] makes of one character of such a fragment. *)
Definition dotted_item (c : ascii) : regex :=
  if Ascii.eqb c "." then RAny else RChar c.

(** * Properties *)

(** ** Regular expressions: the matcher against the language *)

Ltac inv H := inversion H; subst; clear H.

Section RegexTheory.

Lemma nullable_spec (r : regex) : nullable r = true <-> re_lang r [].
Proof.
  induction r as [| | a | | a IHa b IHb | a IHa b IHb | a IHa]; simpl.
  - split; [discriminate | intro H; inversion H].
  - split; [intros _; constructor | reflexivity].
  - split; [discriminate | intro H; inversion H].
  - split; [discriminate | intro H; inversion H].
  - rewrite andb_true_iff, IHa, IHb. split.
    + intros [Ha Hb]. change (@nil ascii) with (@nil ascii ++ []).
      constructor; assumption.
    + intro H. inv H.
      match goal with E : _ ++ _ = [] |- _ => apply app_eq_nil in E as [-> ->] end.
      split; assumption.
  - rewrite orb_true_iff, IHa, IHb. split.
    + intros [H | H]; [apply L_alt_l | apply L_alt_r]; exact H.
    + intro H. inv H; [left | right]; assumption.
  - split; [intros _; constructor | reflexivity].
Qed.

Lemma star_cons_inv (a : regex) (c : ascii) (s : list ascii) :
  re_lang (RStar a) (c :: s) ->
  exists s1 s2, s = s1 ++ s2 /\ re_lang a (c :: s1) /\ re_lang (RStar a) s2.
Proof.
  intro H.
  remember (RStar a) as r eqn:Hr.
  remember (c :: s) as w eqn:Hw.
  revert Hr Hw.
  induction H as [| | | | | | a' | a' u v Hu _ Hv IHv]; intros Hr Hw;
    try discriminate.
  injection Hr as ->.
  destruct u as [| x u'].
  - simpl in Hw. apply IHv; [reflexivity | assumption].
  - simpl in Hw. injection Hw as -> <-.
    exists u', v. repeat split; assumption.
Qed.

Lemma seq_cons_inv (a b : regex) (c : ascii) (s : list ascii) :
  re_lang (RSeq a b) (c :: s) ->
  (exists u v, s = u ++ v /\ re_lang a (c :: u) /\ re_lang b v)
  \/ (re_lang a [] /\ re_lang b (c :: s)).
Proof.
  intro H. inversion H as [| | | a' b' u v Hu Hv [Ea Eb] Heq | | | |]; subst.
  destruct u as [| x u'].
  - simpl in Heq. subst v. right. split; assumption.
  - simpl in Heq. injection Heq as -> <-.
    left. exists u', v. repeat split; assumption.
Qed.

Lemma seq_cons_intro (a b : regex) (c : ascii) (u v : list ascii) :
  re_lang a (c :: u) -> re_lang b v -> re_lang (RSeq a b) (c :: u ++ v).
Proof.
  intros Hu Hv. change (c :: u ++ v) with ((c :: u) ++ v).
  constructor; assumption.
Qed.

Lemma deriv_spec (r : regex) (c : ascii) (s : list ascii) :
  re_lang (deriv c r) s <-> re_lang r (c :: s).
Proof.
  revert s.
  induction r as [| | a | | a IHa b IHb | a IHa b IHb | a IHa];
    intro s; simpl.
  - split; intro H; inversion H.
  - split; intro H; inversion H.
  - destruct (ci_eqb a c) eqn:E; split; intro H.
    + inv H. constructor. exact E.
    + inv H. constructor.
    + inversion H.
    + inv H. congruence.
  - destruct (Ascii.eqb c newline) eqn:E; split; intro H.
    + inversion H.
    + inv H. congruence.
    + inv H. constructor. exact E.
    + inv H. constructor.
  - assert (Hseq : re_lang (RSeq (deriv c a) b) s -> re_lang (RSeq a b) (c :: s)).
    { intro H. inv H. apply seq_cons_intro; [apply IHa |]; assumption. }
    destruct (nullable a) eqn:Na; split; intro H.
    + inv H.
      * apply Hseq. assumption.
      * change (c :: s) with ([] ++ c :: s).
        constructor; [apply nullable_spec; exact Na | apply IHb; assumption].
    + apply seq_cons_inv in H as [(u & v & -> & Hu & Hv) | [_ H']].
      * apply L_alt_l. constructor; [apply IHa |]; assumption.
      * apply L_alt_r, IHb, H'.
    + apply Hseq, H.
    + apply seq_cons_inv in H as [(u & v & -> & Hu & Hv) | [H' _]].
      * constructor; [apply IHa |]; assumption.
      * apply nullable_spec in H'. congruence.
  - split; intro H.
    + inv H; [apply L_alt_l, IHa | apply L_alt_r, IHb]; assumption.
    + inv H; [apply L_alt_l, IHa | apply L_alt_r, IHb]; assumption.
  - split; intro H.
    + inv H.
      match goal with
      | |- re_lang _ (c :: ?u ++ ?v) => change (c :: u ++ v) with ((c :: u) ++ v)
      end.
      apply L_star_cons; [apply IHa |]; assumption.
    + apply star_cons_inv in H as (s1 & s2 & -> & H1 & H2).
      constructor; [apply IHa |]; assumption.
Qed.

Lemma re_match_prefix_spec (s : list ascii) (r : regex) :
  re_match_prefix r s = true <-> exists m t, s = m ++ t /\ re_lang r m.
Proof.
  revert r.
  induction s as [| c s IH]; intro r; simpl.
  - rewrite orb_false_r, nullable_spec. split.
    + intro H. exists [], []. split; [reflexivity | exact H].
    + intros (m & t & Heq & H). symmetry in Heq.
      apply app_eq_nil in Heq as [-> _]. exact H.
  - rewrite orb_true_iff, nullable_spec, IH. split.
    + intros [H | (m & t & -> & H)].
      * exists [], (c :: s). split; [reflexivity | exact H].
      * exists (c :: m), t. split; [reflexivity | apply deriv_spec, H].
    + intros (m & t & Heq & H).
      destruct m as [| x m'].
      * left. exact H.
      * simpl in Heq. injection Heq as <- ->.
        right. exists m', t. split; [reflexivity | apply deriv_spec, H].
Qed.

Lemma re_search_spec (r : regex) (s : list ascii) :
  re_search r s = true <->
  exists pre m post, s = pre ++ m ++ post /\ re_lang r m.
Proof.
  induction s as [| c s IH]; cbn [re_search].
  - rewrite orb_false_r, re_match_prefix_spec. split.
    + intros (m & t & Heq & H). exists [], m, t. split; assumption.
    + intros (pre & m & post & Heq & H). symmetry in Heq.
      apply app_eq_nil in Heq as [-> Heq].
      exists m, post. split; [symmetry; exact Heq | exact H].
  - rewrite orb_true_iff, re_match_prefix_spec, IH. split.
    + intros [(m & t & Heq & H) | (pre & m & post & -> & H)].
      * exists [], m, t. split; assumption.
      * exists (c :: pre), m, post. split; [reflexivity | exact H].
    + intros (pre & m & post & Heq & H).
      destruct pre as [| x pre'].
      * left. exists m, post. split; assumption.
      * simpl in Heq. injection Heq as <- ->.
        right. exists pre', m, post. split; [reflexivity | exact H].
Qed.

End RegexTheory.

(** ** Plain fragments: the pattern is its own characters *)

Section PlainFragments.

Lemma plain_char_branches (c : ascii) :
  is_special_char c = false ->
  Ascii.eqb c backslash = false /\ Ascii.eqb c "." = false
  /\ Ascii.eqb c "|" = false /\ Ascii.eqb c "(" = false
  /\ Ascii.eqb c ")" = false /\ is_repeat_char c = false.
Proof.
  unfold is_special_char, is_repeat_char. intro H.
  repeat (apply orb_false_iff in H; destruct H as [H ?]).
  repeat split; try assumption.
  repeat (apply orb_false_iff; split); assumption.
Qed.

Lemma re_parse_loop_plain (s : string) (items : list regex) :
  Forall (fun c => is_special_char c = false) (chars s) ->
  re_parse_loop s [] [] items false
  = Parsed (mk_branch (rev (map RChar (chars s)) ++ items)).
Proof.
  revert items.
  induction s as [| c rest IH]; intros items Hplain.
  - reflexivity.
  - inversion Hplain as [| c' cs Hc Hrest]; subst.
    destruct (plain_char_branches c Hc) as (E1 & E2 & E3 & E4 & E5 & E6).
    cbn [re_parse_loop].
    rewrite E1, E2, E3, E4, E5, E6, Hc.
    rewrite (IH (RChar c :: items) Hrest).
    cbn [chars list_ascii_of_string map rev].
    rewrite <- app_assoc. reflexivity.
Qed.

Lemma mk_branch_rev_literal (cs : list ascii) :
  mk_branch (rev (map RChar cs)) = literal_regex cs.
Proof.
  unfold mk_branch, literal_regex.
  rewrite <- fold_left_rev_right, rev_involutive.
  induction cs as [| c cs IH]; simpl; [reflexivity | now rewrite IH].
Qed.

Lemma re_parse_plain (fragment : string) :
  plain_fragment fragment ->
  re_parse fragment = Parsed (literal_regex (chars fragment)).
Proof.
  intro H. unfold re_parse.
  rewrite (re_parse_loop_plain fragment [] H), app_nil_r.
  now rewrite mk_branch_rev_literal.
Qed.

Lemma ci_eqb_lower (a b : ascii) :
  ci_eqb a b = true <-> lower_char a = lower_char b.
Proof. unfold ci_eqb. apply Ascii.eqb_eq. Qed.

Lemma literal_regex_lang (cs m : list ascii) :
  re_lang (literal_regex cs) m <-> lower m = lower cs.
Proof.
  revert m.
  induction cs as [| c cs IH]; intro m; simpl.
  - split; intro H.
    + inv H. reflexivity.
    + destruct m; [constructor | discriminate].
  - split; intro H.
    + inv H.
      match goal with Hc : re_lang (RChar _) _ |- _ => inv Hc end.
      simpl. f_equal.
      * symmetry. now apply ci_eqb_lower.
      * now apply IH.
    + destruct m as [| x m']; [discriminate |].
      simpl in H. injection H as Hx Hm.
      change (x :: m') with ([x] ++ m').
      constructor.
      * constructor. apply ci_eqb_lower. now symmetry.
      * now apply IH.
Qed.

Lemma is_prefix_spec (p s : list ascii) :
  is_prefix p s = true <-> exists t, s = p ++ t.
Proof.
  revert s.
  induction p as [| a p IH]; intro s; simpl.
  - split; [intros _; now exists s | reflexivity].
  - destruct s as [| b s].
    + split; [discriminate | intros [t Ht]; discriminate].
    + rewrite andb_true_iff, Ascii.eqb_eq, IH. split.
      * intros [-> [t ->]]. now exists t.
      * intros [t Ht]. injection Ht as -> ->. split; [reflexivity | now exists t].
Qed.

Lemma is_substring_spec (p s : list ascii) :
  is_substring p s = true <-> exists pre post, s = pre ++ p ++ post.
Proof.
  induction s as [| b s IH]; cbn [is_substring].
  - rewrite orb_false_r, is_prefix_spec. split.
    + intros [t Ht]. now exists [], t.
    + intros (pre & post & H). symmetry in H.
      apply app_eq_nil in H as [-> H]. exists post. now symmetry.
  - rewrite orb_true_iff, is_prefix_spec, IH. split.
    + intros [[t Ht] | (pre & post & ->)].
      * now exists [], t.
      * now exists (b :: pre), post.
    + intros (pre & post & H).
      destruct pre as [| x pre'].
      * left. now exists post.
      * simpl in H. injection H as <- ->. right. now exists pre', post.
Qed.

(** On a pattern of plain characters, [re.search] under [IGNORECASE] is
    the substring test on the case-folded strings. *)
Lemma literal_search_is_substring (cs s : list ascii) :
  re_search (literal_regex cs) s = is_substring (lower cs) (lower s).
Proof.
  apply eq_true_iff_eq.
  rewrite re_search_spec, is_substring_spec. split.
  - intros (pre & m & post & -> & Hm).
    apply literal_regex_lang in Hm.
    exists (lower pre), (lower post).
    unfold lower in *. now rewrite !map_app, Hm.
  - intros (pre' & post' & H).
    unfold lower in H.
    apply map_eq_app in H as (pre & rest & -> & <- & H).
    apply map_eq_app in H as (m & post & -> & Hm & <-).
    exists pre, m, post. split; [reflexivity |].
    now apply literal_regex_lang.
Qed.

End PlainFragments.

(** ** The game-information tool *)

Section GameInfo.

Lemma filter_first_split {A : Type} (f : A -> bool) (l : list A) (x : A)
    (rest : list A) :
  filter f l = x :: rest ->
  exists pre post,
    l = pre ++ x :: post /\ (forall y, In y pre -> f y = false) /\ f x = true
    /\ rest = filter f post.
Proof.
  induction l as [| a l IH]; simpl; [discriminate |].
  destruct (f a) eqn:Fa.
  - intro H. injection H as -> <-.
    exists [], l. repeat split; [intros y [] | exact Fa].
  - intro H. destruct (IH H) as (pre & post & -> & Hpre & Hx & Hrest).
    exists (a :: pre), post. repeat split; try assumption.
    intros y [<- | Hy]; [exact Fa | now apply Hpre].
Qed.

Lemma filter_none {A : Type} (f : A -> bool) (l : list A) :
  (forall y, In y l -> f y = false) -> filter f l = [].
Proof.
  induction l as [| a l IH]; simpl; intro H; [reflexivity |].
  rewrite (H a (or_introl eq_refl)). apply IH. intros y Hy. apply H. now right.
Qed.

(** What [get_game_info] returns once the rows are filtered. *)
Lemma get_game_info_filtered (api : statsapi) (game_date team_name : string)
    (sched : list game) :
  schedule api game_date game_date = Ok sched ->
  get_game_info api game_date team_name
  = (game_info_df <- filter_by_summary sched team_name ;;
     match game_info_df with
     | [] => Raise IndexError
     | g :: _ => Ok (context_document g)
     end).
Proof.
  intro Hs. unfold get_game_info. rewrite Hs. cbn [bind].
  destruct (filter_by_summary sched team_name) as [[| g l] | e |]; reflexivity.
Qed.

(** The selection, read off the pattern's language: an entry is kept when
    some substring of its summary is matched by the compiled fragment. *)
Lemma filter_by_summary_regex (sched : list game) (team_name : string)
    (r : regex) (g : game) :
  sched <> [] ->
  re_parse team_name = Parsed r ->
  (exists l, filter_by_summary sched team_name = Ok l /\ In g l)
  <-> In g sched
      /\ exists s pre m post,
           summary g = Some s /\ chars s = pre ++ m ++ post /\ re_lang r m.
Proof.
  intros Hne Hp.
  assert (Hf : filter_by_summary sched team_name
               = Ok (filter (fun x => contains_compiled r (summary x)) sched)).
  { unfold filter_by_summary. destruct sched; [contradiction |].
    now rewrite Hp. }
  rewrite Hf. split.
  - intros (l & Hl & Hin). injection Hl as <-.
    apply filter_In in Hin as [Hin Hc]. split; [exact Hin |].
    unfold contains_compiled in Hc. destruct (summary g) as [s |]; [| discriminate].
    apply re_search_spec in Hc as (pre & m & post & Heq & Hm).
    now exists s, pre, m, post.
  - intros (Hin & s & pre & m & post & Hs & Heq & Hm).
    eexists. split; [reflexivity |].
    apply filter_In. split; [exact Hin |].
    unfold contains_compiled. rewrite Hs.
    apply re_search_spec. now exists pre, m, post.
Qed.

(** The tool over the engine of the modelled fragment is the tool. *)
Lemma filter_by_summary_modelled (sched : list game) (team_name : string) :
  filter_by_summary_with modelled_re sched team_name
  = filter_by_summary sched team_name.
Proof.
  unfold filter_by_summary_with, filter_by_summary, modelled_re.
  destruct sched; [reflexivity |].
  destruct (re_parse team_name); reflexivity.
Qed.

Lemma get_game_info_modelled (api : statsapi) (game_date team_name : string) :
  get_game_info_with modelled_re api game_date team_name
  = get_game_info api game_date team_name.
Proof.
  unfold get_game_info_with, get_game_info.
  destruct (schedule api game_date game_date); try reflexivity.
  cbn [bind]. rewrite filter_by_summary_modelled. reflexivity.
Qed.

(** Every field is read from the first row of the filtered frame. *)
Lemma game_info_of_first (game_info_df : list game) :
  game_info_of game_info_df
  = match game_info_df with
    | [] => Raise IndexError
    | g :: _ => Ok (context_document g)
    end.
Proof. destruct game_info_df; reflexivity. Qed.

Lemma get_game_info_with_filtered (engine : re_engine) (api : statsapi)
    (game_date team_name : string) (sched : list game) :
  schedule api game_date game_date = Ok sched ->
  get_game_info_with engine api game_date team_name
  = (game_info_df <- filter_by_summary_with engine sched team_name ;;
     match game_info_df with
     | [] => Raise IndexError
     | g :: _ => Ok (context_document g)
     end).
Proof.
  intro Hs. unfold get_game_info_with. rewrite Hs. cbn [bind].
  destruct (filter_by_summary_with engine sched team_name); cbn [bind];
    [apply game_info_of_first | reflexivity | reflexivity].
Qed.

(** On a schedule with entries and a team name that compiles, the rows
    kept are those the compiled pattern finds itself in. *)
Lemma filter_by_summary_with_compiled (engine : re_engine) (sched : list game)
    (team_name : string) (m : string -> bool) :
  sched <> [] ->
  engine team_name = Ok m ->
  filter_by_summary_with engine sched team_name
  = Ok (filter (fun g => contains_with m (summary g)) sched).
Proof.
  intros Hne Hm. unfold filter_by_summary_with.
  destruct sched; [contradiction |]. now rewrite Hm.
Qed.

End GameInfo.

(** C3 (as stated, refuted).  The sample schedule has no entry for the
    Dodgers; [get_game_info] fails, but with [IndexError]: no exception of a
    class [NotFoundError] is raised. *)
Lemma get_game_info_no_match_not_NotFoundError :
  filter_by_summary sample_schedule "Dodgers" = Ok []
  /\ get_game_info sample_api "2024-07-14" "Dodgers" = Raise IndexError
  /\ ~ (exists e, get_game_info sample_api "2024-07-14" "Dodgers" = Raise e
                  /\ exn_class e = "NotFoundError").
Proof.
  split; [reflexivity |].
  split; [reflexivity |].
  intros (e & He & Hc).
  vm_compute in He. injection He as <-. discriminate Hc.
Qed.

(** C3 (amended).  Whatever [re] makes of the team name: when it compiles
    and the compiled pattern is found in no entry's summary,
    [get_game_info] fails with [IndexError] (raised by [tolist()[0]] on the
    empty selection) if the schedule has entries, and with
    [KeyError('summary')] if the schedule listing itself is empty. *)
Theorem get_game_info_no_match (engine : re_engine) (api : statsapi)
    (game_date team_name : string) (sched : list game) (m : string -> bool) :
  schedule api game_date game_date = Ok sched ->
  engine team_name = Ok m ->
  (forall g, In g sched -> contains_with m (summary g) = false) ->
  get_game_info_with engine api game_date team_name
  = Raise (match sched with [] => KeyError "summary" | _ :: _ => IndexError end).
Proof.
  intros Hs Hm Hnone.
  rewrite (get_game_info_with_filtered _ _ _ _ _ Hs).
  destruct sched as [| g0 sched']; [reflexivity |].
  rewrite (filter_by_summary_with_compiled engine _ _ m) by (discriminate || exact Hm).
  rewrite (filter_none _ _ Hnone). reflexivity.
Qed.

Lemma get_game_info_no_match_witness :
  get_game_info_with modelled_re sample_api "2024-07-14" "Dodgers"
  = Raise IndexError.
Proof.
  apply (get_game_info_no_match modelled_re sample_api "2024-07-14" "Dodgers"
           sample_schedule
           (fun s => re_search (literal_regex (chars "Dodgers")) (chars s))).
  - reflexivity.
  - reflexivity.
  - intros g [<- | [<- | [<- | []]]]; vm_compute; reflexivity.
Defined.

(** C4.  Whatever [re] makes of the team name: when the compiled pattern
    is found in the summary of more than one schedule entry, the document
    [get_game_info] returns is built, field by field, from the first row of
    the filtered schedule, and that row is the first entry of the schedule,
    in its order, that the pattern is found in. *)
Theorem get_game_info_first_match (engine : re_engine) (api : statsapi)
    (game_date team_name : string) (sched : list game) (m : string -> bool)
    (g g2 : game) (rest : list game) :
  schedule api game_date game_date = Ok sched ->
  engine team_name = Ok m ->
  filter (fun x => contains_with m (summary x)) sched = g :: g2 :: rest ->
  get_game_info_with engine api game_date team_name = Ok (context_document g)
  /\ exists pre post,
       sched = pre ++ g :: post
       /\ (forall x, In x pre -> contains_with m (summary x) = false)
       /\ contains_with m (summary g) = true.
Proof.
  intros Hs Hm Hf.
  assert (Hne : sched <> []) by (intros ->; discriminate Hf).
  split.
  - rewrite (get_game_info_with_filtered _ _ _ _ _ Hs).
    rewrite (filter_by_summary_with_compiled engine _ _ m Hne Hm), Hf.
    reflexivity.
  - apply filter_first_split in Hf as (pre & post & Heq & Hpre & Hg & _).
    exists pre, post. repeat split; assumption.
Qed.

Lemma get_game_info_first_match_witness :
  get_game_info_with modelled_re sample_api "2024-07-14" "new york"
  = Ok (context_document sample_game_nym).
Proof.
  apply (get_game_info_first_match modelled_re sample_api "2024-07-14" "new york"
           sample_schedule
           (fun s => re_search (literal_regex (chars "new york")) (chars s))
           sample_game_nym sample_game_nyy []).
  - reflexivity.
  - reflexivity.
  - vm_compute. reflexivity.
Defined.

(** C7 (as stated, refuted).  The summary of the Yankees game contains the
    fragment [Yankees (5)], letter case ignored, yet [get_game_info]'s filter
    selects no entry for it: the parentheses are read as a group. *)
Lemma filter_by_summary_not_substring :
  substring_ci "Yankees (5)" (summary sample_game_nyy) = true
  /\ filter_by_summary sample_schedule "Yankees (5)" = Ok []
  /\ filter_by_summary sample_schedule "Yankees (5)"
     <> Ok (filter (fun g => substring_ci "Yankees (5)" (summary g)) sample_schedule).
Proof.
  split; [vm_compute; reflexivity |].
  split; [vm_compute; reflexivity |].
  vm_compute. discriminate.
Qed.

(** C7 (amended).  For a fragment without characters special to regular
    expressions and a schedule with entries, [get_game_info]'s filter selects
    exactly the entries whose summary contains the fragment as a
    case-insensitive substring, in schedule order; letter case is that of
    all letters of the code points 0 to 255, not of A-Z alone. *)
Theorem filter_by_summary_plain (sched : list game) (team_name : string) :
  plain_fragment team_name ->
  sched <> [] ->
  filter_by_summary sched team_name
  = Ok (filter (fun g => substring_ci team_name (summary g)) sched)
  /\ forall g,
       (exists l, filter_by_summary sched team_name = Ok l /\ In g l)
       <-> In g sched /\ substring_ci team_name (summary g) = true.
Proof.
  intros Hplain Hne.
  assert (Hf : filter_by_summary sched team_name
               = Ok (filter (fun g => substring_ci team_name (summary g)) sched)).
  { unfold filter_by_summary. destruct sched as [| g0 sched']; [contradiction |].
    rewrite (re_parse_plain _ Hplain). f_equal.
    apply filter_ext. intro g. unfold contains_compiled, substring_ci.
    destruct (summary g) as [s |]; [| reflexivity].
    apply literal_search_is_substring. }
  split; [exact Hf |].
  intro g. rewrite Hf. split.
  - intros (l & Hl & Hin). injection Hl as <-. now apply filter_In in Hin.
  - intro H. eexists. split; [reflexivity |]. now apply filter_In.
Qed.

Lemma filter_by_summary_plain_witness :
  filter_by_summary sample_schedule "yankees" = Ok [sample_game_nyy]
  /\ filter_by_summary (sample_game_latin :: sample_schedule) sample_team_latin
     = Ok [sample_game_latin].
Proof.
  split.
  - apply (filter_by_summary_plain sample_schedule "yankees").
    + unfold plain_fragment. vm_compute. repeat constructor.
    + discriminate.
  - apply (filter_by_summary_plain (sample_game_latin :: sample_schedule)
             sample_team_latin).
    + unfold plain_fragment. vm_compute. repeat constructor.
    + discriminate.
Defined.

(** C8.  Two invocations of [get_game_info] with the same query return the
    same outcome, on success the same JSON string, whenever the provider
    answers the schedule request for that date as it did the first time:
    when the second invocation follows the first at once, and at any later
    state of the provider, whatever was requested in between and whatever
    the time.  An invocation leaves the provider's data as they were, and
    what it returns is what the tool computes from the provider's answer of
    that moment and the query, nothing else. *)
Theorem get_game_info_call_idempotent (engine : re_engine)
    (game_date team_name : string) (p : provider) :
  let first := get_game_info_call engine game_date team_name p in
  answers (snd first) = answers p
  /\ received (snd first) = received p ++ [(game_date, game_date)]
  /\ fst (get_game_info_call engine game_date team_name (snd first)) = fst first
  /\ (forall p2 : provider,
        schedule (answers p2) game_date game_date
        = schedule (answers p) game_date game_date ->
        fst (get_game_info_call engine game_date team_name p2) = fst first)
  /\ fst first = get_game_info_with engine (answers p) game_date team_name.
Proof.
  cbv zeta. unfold get_game_info_call, statsapi_schedule.
  cbn [fst snd answers received].
  refine (conj eq_refl (conj eq_refl (conj eq_refl (conj _ eq_refl)))).
  intros p2 H. now rewrite H.
Qed.

Lemma get_game_info_call_idempotent_witness :
  fst (get_game_info_call modelled_re "2024-07-14" "Yankees" sample_provider)
  = Ok (context_document sample_game_nyy)
  /\ fst (get_game_info_call modelled_re "2024-07-14" "Yankees" sample_provider_later)
     = fst (get_game_info_call modelled_re "2024-07-14" "Yankees" sample_provider).
Proof.
  split; [vm_compute; reflexivity |].
  destruct (get_game_info_call_idempotent modelled_re "2024-07-14" "Yankees"
              sample_provider) as (_ & _ & _ & H & _).
  apply (H sample_provider_later). reflexivity.
Defined.

(** C10.  [get_game_info] reads [team_name] as a regular expression.  With
    [Red.Sox] the dot matches the space, so the Red Sox game is selected
    although its summary does not contain the fragment; with [Mets (7)]
    the parentheses group, so the Mets game is not selected although its
    summary contains the fragment; and [(] is no pattern at all: the call
    fails with [re.error]. *)
Theorem team_name_is_a_regex :
  (exists l, filter_by_summary sample_schedule "Red.Sox" = Ok l
             /\ In sample_game_bos l
             /\ substring_ci "Red.Sox" (summary sample_game_bos) = false)
  /\ (exists l, filter_by_summary sample_schedule "Mets (7)" = Ok l
                /\ ~ In sample_game_nym l
                /\ substring_ci "Mets (7)" (summary sample_game_nym) = true)
  /\ get_game_info sample_api "2024-07-14" "(" = Raise ReError.
Proof.
  split; [| split].
  - eexists. split; [vm_compute; reflexivity |].
    split; [left; reflexivity | vm_compute; reflexivity].
  - eexists. split; [vm_compute; reflexivity |].
    split; [intros [] | vm_compute; reflexivity].
  - vm_compute. reflexivity.
Qed.

(** ** The detail fetchers *)

Section DetailFetchers.

Lemma merge_inner_In {L R : Type} (lkey : L -> string) (rkey : R -> string)
    (left : list L) (right : list R) (l : L) (r : R) :
  In (l, r) (merge_inner lkey rkey left right)
  <-> In l left /\ In r right /\ lkey l = rkey r.
Proof.
  unfold merge_inner. rewrite in_flat_map. split.
  - intros (l0 & Hl0 & Hin).
    apply in_map_iff in Hin as (r0 & Heq & Hr0).
    injection Heq as -> ->.
    apply filter_In in Hr0 as [Hr0 Hk].
    apply String.eqb_eq in Hk. repeat split; assumption.
  - intros (Hl & Hr & Hk).
    exists l. split; [exact Hl |].
    apply in_map, filter_In. split; [exact Hr |].
    now apply String.eqb_eq.
Qed.

Lemma merge_keys_check_ok {A : Type} (raw_away raw_home : list A)
    (pinfo : list (string * player_info)) :
  pinfo <> [] -> raw_away ++ raw_home <> [] ->
  merge_keys_check raw_away raw_home pinfo = Ok tt.
Proof.
  intros Hp Hr. unfold merge_keys_check.
  destruct pinfo; [contradiction |].
  destruct raw_away; [destruct raw_home; [contradiction |] |]; reflexivity.
Qed.

(** The fetchers fail only for want of a key column, never over a name
    without counterpart. *)
Lemma merge_keys_check_raises {A : Type} (raw_away raw_home : list A)
    (pinfo : list (string * player_info)) (e : exn) :
  merge_keys_check raw_away raw_home pinfo = Raise e ->
  (pinfo = [] /\ e = KeyError "boxscoreName")
  \/ (raw_away = [] /\ raw_home = [] /\ e = KeyError "name").
Proof.
  unfold merge_keys_check.
  destruct pinfo; [intro H; injection H as <-; now left |].
  destruct raw_away; [destruct raw_home |]; try discriminate.
  intro H. injection H as <-. now right.
Qed.

Lemma with_team_name_In {A : Type} (t : string) (rows : list A) (x : string * A) :
  In x (with_team_name t rows) <-> fst x = t /\ In (snd x) rows.
Proof.
  unfold with_team_name. rewrite in_map_iff. destruct x as [t' a]. simpl. split.
  - intros (a0 & Heq & Ha). injection Heq as -> ->. now split.
  - intros [-> Ha]. now exists a.
Qed.

End DetailFetchers.

(** C5 (as stated, refuted).  In the sample boxscore with an empty
    [playerInfo] no row has a counterpart.  The rows are not dropped with an
    empty result: both fetchers fail, with [KeyError('boxscoreName')]. *)
Lemma detail_fetchers_fail_without_player_info :
  boxscore_data sample_api_no_players "745123" = Ok sample_boxscore_no_players
  /\ playerInfo sample_boxscore_no_players = []
  /\ In (sample_batter "Ghost" "PH" "1" "0")
        (tl (awayBatters sample_boxscore_no_players))
  /\ In (sample_pitcher "Nobody" "1.0" "1")
        (tl (homePitchers sample_boxscore_no_players))
  /\ get_batting_stats sample_api_no_players "745123"
     = Raise (KeyError "boxscoreName")
  /\ get_pitching_stats sample_api_no_players "745123"
     = Raise (KeyError "boxscoreName").
Proof.
  refine (conj eq_refl (conj eq_refl (conj _ (conj _ (conj eq_refl eq_refl))))).
  - right. left. reflexivity.
  - left. reflexivity.
Qed.

(** C5 (amended).  For a boxscore with a non-empty [playerInfo], each
    detail fetcher whose two per-side tables are not both empty returns, and
    its records are exactly the inner join on the name: a record is in the
    output if and only if it pairs a per-side row after the first (with its
    team name) with a player-info entry whose [boxscoreName] is the row's
    [name].  A row with no such entry, and an entry with no such row, give
    no record and no failure.  For a boxscore with an empty [playerInfo]
    both fetchers fail with [KeyError('boxscoreName')]. *)
Theorem detail_fetchers_inner_join (api : statsapi) (gid : string) (b : boxscore) :
  boxscore_data api gid = Ok b ->
  (playerInfo b <> [] ->
   (awayBatters b ++ homeBatters b <> [] ->
    exists recs,
         get_batting_stats api gid = Ok (json_dumps_records recs)
         /\ forall rec,
              In rec recs <->
              exists team row entry,
                ((team = teamName (teamInfo_away b) /\ In row (tl (awayBatters b)))
                 \/ (team = teamName (teamInfo_home b) /\ In row (tl (homeBatters b))))
                /\ In entry (playerInfo b)
                /\ b_name row = boxscoreName (snd entry)
                /\ rec = batting_record ((team, row), entry))
   /\ (awayPitchers b ++ homePitchers b <> [] ->
       exists recs,
         get_pitching_stats api gid = Ok (json_dumps_records recs)
         /\ forall rec,
              In rec recs <->
              exists team row entry,
                ((team = teamName (teamInfo_away b) /\ In row (tl (awayPitchers b)))
                 \/ (team = teamName (teamInfo_home b) /\ In row (tl (homePitchers b))))
                /\ In entry (playerInfo b)
                /\ p_name row = boxscoreName (snd entry)
                /\ rec = pitching_record ((team, row), entry)))
  /\ (playerInfo b = [] ->
      get_batting_stats api gid = Raise (KeyError "boxscoreName")
      /\ get_pitching_stats api gid = Raise (KeyError "boxscoreName")).
Proof.
  intro Hb. split.
  - intro Hp. split.
    + intro Hbat.
      unfold get_batting_stats, batting_stats_records. rewrite Hb. cbn [bind].
      rewrite (merge_keys_check_ok _ _ _ Hp Hbat). cbn [bind].
      eexists. split; [reflexivity |].
      intro rec. rewrite in_map_iff. split.
      * intros ([[team row] entry] & <- & Hin).
        apply merge_inner_In in Hin as (Hl & Hr & Hk). simpl in Hk.
        exists team, row, entry. repeat split; try assumption.
        apply in_app_or in Hl as [Hl | Hl];
          apply with_team_name_In in Hl as [Ht Hrow]; simpl in Ht, Hrow;
          [left | right]; split; auto.
      * intros (team & row & entry & Hside & He & Hk & ->).
        exists ((team, row), entry). split; [reflexivity |].
        apply merge_inner_In. repeat split; try assumption.
        apply in_or_app.
        destruct Hside as [[-> Hrow] | [-> Hrow]]; [left | right];
          apply with_team_name_In; now split.
    + intro Hpit.
      unfold get_pitching_stats, pitching_stats_records. rewrite Hb. cbn [bind].
      rewrite (merge_keys_check_ok _ _ _ Hp Hpit). cbn [bind].
      eexists. split; [reflexivity |].
      intro rec. rewrite in_map_iff. split.
      * intros ([[team row] entry] & <- & Hin).
        apply merge_inner_In in Hin as (Hl & Hr & Hk). simpl in Hk.
        exists team, row, entry. repeat split; try assumption.
        apply in_app_or in Hl as [Hl | Hl];
          apply with_team_name_In in Hl as [Ht Hrow]; simpl in Ht, Hrow;
          [left | right]; split; auto.
      * intros (team & row & entry & Hside & He & Hk & ->).
        exists ((team, row), entry). split; [reflexivity |].
        apply merge_inner_In. repeat split; try assumption.
        apply in_or_app.
        destruct Hside as [[-> Hrow] | [-> Hrow]]; [left | right];
          apply with_team_name_In; now split.
  - intro Hp.
    unfold get_batting_stats, batting_stats_records,
      get_pitching_stats, pitching_stats_records.
    rewrite Hb. cbn [bind]. unfold merge_keys_check. rewrite Hp.
    split; reflexivity.
Qed.

(** The sample boxscore without pitchers' tables: the batting fetcher
    returns, with a record for [Soto]. *)
Lemma detail_fetchers_inner_join_witness :
  let api := {| schedule := fun _ _ => Ok sample_schedule;
                boxscore_data := fun _ => Ok sample_boxscore_batters_only |} in
  awayPitchers sample_boxscore_batters_only
    ++ homePitchers sample_boxscore_batters_only = []
  /\ exists recs,
       get_batting_stats api "745123" = Ok (json_dumps_records recs)
       /\ In (batting_record
                (("Yankees", sample_batter "Soto" "RF" "4" "2"),
                 ("ID665742", {| fullName := "Juan Soto"; boxscoreName := "Soto" |})))
            recs.
Proof.
  cbv zeta. split; [reflexivity |].
  destruct (detail_fetchers_inner_join
              {| schedule := fun _ _ => Ok sample_schedule;
                 boxscore_data := fun _ => Ok sample_boxscore_batters_only |}
              "745123" sample_boxscore_batters_only eq_refl) as [H _].
  destruct H as [H _]; [discriminate |].
  destruct H as (recs & Hrecs & Hin); [discriminate |].
  exists recs. split; [exact Hrecs |].
  apply Hin.
  exists "Yankees", (sample_batter "Soto" "RF" "4" "2"),
    ("ID665742", {| fullName := "Juan Soto"; boxscoreName := "Soto" |}).
  split; [left; split; [reflexivity | left; reflexivity] |].
  split; [left; reflexivity |].
  split; reflexivity.
Defined.

(** C9.  The first row of each side's raw table never reaches the output of
    the detail fetchers: every record they return stems from a row after
    the first of a table that has more than one row; when neither table has
    more than one row the records are empty; and replacing the two first
    rows changes nothing. *)
Theorem first_rows_excluded (api : statsapi) (gid : string) (b : boxscore) :
  boxscore_data api gid = Ok b ->
  (forall s,
      get_batting_stats api gid = Ok s ->
      exists recs,
        s = json_dumps_records recs
        /\ (forall rec,
              In rec recs ->
              exists team row entry,
                rec = batting_record ((team, row), entry)
                /\ ((team = teamName (teamInfo_away b)
                     /\ In row (tl (awayBatters b))
                     /\ 1 < List.length (awayBatters b))
                    \/ (team = teamName (teamInfo_home b)
                        /\ In row (tl (homeBatters b))
                        /\ 1 < List.length (homeBatters b))))
        /\ (List.length (awayBatters b) <= 1 ->
            List.length (homeBatters b) <= 1 -> recs = []))
  /\ (forall s,
        get_pitching_stats api gid = Ok s ->
        exists recs,
          s = json_dumps_records recs
          /\ (forall rec,
                In rec recs ->
                exists team row entry,
                  rec = pitching_record ((team, row), entry)
                  /\ ((team = teamName (teamInfo_away b)
                       /\ In row (tl (awayPitchers b))
                       /\ 1 < List.length (awayPitchers b))
                      \/ (team = teamName (teamInfo_home b)
                          /\ In row (tl (homePitchers b))
                          /\ 1 < List.length (homePitchers b))))
          /\ (List.length (awayPitchers b) <= 1 ->
              List.length (homePitchers b) <= 1 -> recs = []))
  /\ (forall a0 a0' ra h0 h0' rh,
        batting_stats_records (with_batters b (a0 :: ra) (h0 :: rh))
        = batting_stats_records (with_batters b (a0' :: ra) (h0' :: rh)))
  /\ (forall a0 a0' ra h0 h0' rh,
        pitching_stats_records (with_pitchers b (a0 :: ra) (h0 :: rh))
        = pitching_stats_records (with_pitchers b (a0' :: ra) (h0' :: rh))).
Proof.
  intro Hb.
  assert (Htl : forall (A : Type) (l : list A) (x : A),
             In x (tl l) -> 1 < List.length l).
  { intros A [| a [| a' l]] x H; simpl in *; try contradiction; lia. }
  assert (Hshort : forall (A : Type) (l : list A), List.length l <= 1 -> tl l = []).
  { intros A [| a [| a' l]] H; simpl in *; try reflexivity; lia. }
  refine (conj _ (conj _ (conj _ _))).
  - intros s Hs. unfold get_batting_stats, batting_stats_records in Hs.
    rewrite Hb in Hs. cbn [bind] in Hs.
    destruct (merge_keys_check _ _ _) as [[] | |]; try discriminate.
    cbn [bind] in Hs. injection Hs as <-.
    eexists. split; [reflexivity |]. split.
    + intros rec Hin.
      apply in_map_iff in Hin as ([[team row] entry] & <- & Hin).
      apply merge_inner_In in Hin as (Hl & _ & _).
      exists team, row, entry. split; [reflexivity |].
      apply in_app_or in Hl as [Hl | Hl];
        apply with_team_name_In in Hl as [Ht Hrow]; simpl in Ht, Hrow;
        unfold iloc_from_1 in Hrow; [left | right]; repeat split; eauto.
    + intros Ha Hh. unfold iloc_from_1.
      rewrite (Hshort _ _ Ha), (Hshort _ _ Hh). reflexivity.
  - intros s Hs. unfold get_pitching_stats, pitching_stats_records in Hs.
    rewrite Hb in Hs. cbn [bind] in Hs.
    destruct (merge_keys_check _ _ _) as [[] | |]; try discriminate.
    cbn [bind] in Hs. injection Hs as <-.
    eexists. split; [reflexivity |]. split.
    + intros rec Hin.
      apply in_map_iff in Hin as ([[team row] entry] & <- & Hin).
      apply merge_inner_In in Hin as (Hl & _ & _).
      exists team, row, entry. split; [reflexivity |].
      apply in_app_or in Hl as [Hl | Hl];
        apply with_team_name_In in Hl as [Ht Hrow]; simpl in Ht, Hrow;
        unfold iloc_from_1 in Hrow; [left | right]; repeat split; eauto.
    + intros Ha Hh. unfold iloc_from_1.
      rewrite (Hshort _ _ Ha), (Hshort _ _ Hh). reflexivity.
  - intros. unfold batting_stats_records, with_batters; simpl.
    destruct (playerInfo b); reflexivity.
  - intros. unfold pitching_stats_records, with_pitchers; simpl.
    destruct (playerInfo b); reflexivity.
Qed.

Lemma first_rows_excluded_witness :
  boxscore_data sample_api "745123" = Ok sample_boxscore
  /\ batting_stats_records sample_boxscore
     = batting_stats_records
         (with_batters sample_boxscore
            (sample_batter "Soto" "RF" "4" "2" :: tl (awayBatters sample_boxscore))
            (sample_batter "Cole" "P" "0" "0" :: tl (homeBatters sample_boxscore))).
Proof.
  split; [reflexivity |].
  destruct (first_rows_excluded sample_api "745123" sample_boxscore eq_refl)
    as (_ & _ & H & _).
  exact (H (sample_batter "Yankees Batters" "" "AB" "H")
           (sample_batter "Soto" "RF" "4" "2")
           (tl (awayBatters sample_boxscore))
           (sample_batter "Orioles Batters" "" "AB" "H")
           (sample_batter "Cole" "P" "0" "0")
           (tl (homeBatters sample_boxscore))).
Defined.

(** ** The pipeline cell *)

Section Pipeline.

Variable svc : service.
Variable ag : agents.

Lemma run_bind {A : Type} (a : Assistant) (message : string)
    (k : string -> cell A) (w : world) :
  cell_bind (run svc a message) k w
  = match svc a message with
    | Ok x => k x (record_call w a message)
    | Raise e => (Raise e, record_call w a message)
    | Unmodelled => (Unmodelled, record_call w a message)
    end.
Proof. unfold cell_bind, run. destruct (svc a message); reflexivity. Qed.

Lemma nth_error_calls (w : world) (new : list (Assistant * string)) (n : nat) :
  nth_error (calls w ++ new) (List.length (calls w) + n) = nth_error new n.
Proof.
  rewrite nth_error_app2 by lia. f_equal. lia.
Qed.

End Pipeline.

Ltac step_run E :=
  rewrite run_bind;
  match goal with
  | |- context [match ?svc ?a ?m with _ => _ end] => destruct (svc a m) eqn:E
  end.

Ltac calls_at_6 :=
  cbn [snd fst calls record_call cell_bind print cell_ret stdout clock];
  rewrite <- ?app_assoc; cbn [app];
  rewrite nth_error_calls; cbn [nth_error].

(** C1 (as stated, refuted).  When the call of the gemma writer fails, the
    cell stops there: five calls were made, none of them to the editor, so
    no sequence of three results is handed on. *)
Lemma failed_writer_hands_nothing_to_editor :
  let out := cell_22 (svc_failing "gemma2-9b-it") sample_agents user_prompt
               sample_world in
  fst out = Raise (ServiceError "503 Service Unavailable")
  /\ List.length (calls (snd out)) = 5
  /\ ~ (exists inputs,
          List.length inputs = 3
          /\ In (mlb_editor sample_agents, join nl inputs) (calls (snd out))).
Proof.
  cbv zeta. split; [vm_compute; reflexivity |].
  split; [vm_compute; reflexivity |].
  intros (inputs & _ & Hin).
  apply (in_map (fun c => description (fst c))) in Hin.
  cbn [fst] in Hin. vm_compute in Hin.
  repeat (destruct Hin as [Hin | Hin]; [discriminate Hin |]).
  exact Hin.
Qed.

(** C1 (amended).  The seventh call of cell 22, the editor's, is made if and
    only if the researcher, the two statisticians and the three writers all
    returned; the list it is handed is then exactly the three writers'
    outputs, in declaration order (llama, gemma, mixtral), joined by
    newlines.  In a run that completes, [editor_inputs] is that list of
    length 3, and the units were called one after the other in declaration
    order. *)
Theorem editor_receives_three_in_order (svc : service) (ag : agents)
    (prompt : string) (w : world) :
  (forall c,
      nth_error (calls (snd (cell_22 svc ag prompt w))) (List.length (calls w) + 6)
      = Some c
      <-> exists gi bs ps l g m,
            svc (mlb_researcher ag) prompt = Ok gi
            /\ svc (mlb_batting_statistician ag) gi = Ok bs
            /\ svc (mlb_pitching_statistician ag) gi = Ok ps
            /\ svc (mlb_writer_llama ag) (stats_text bs ps) = Ok l
            /\ svc (mlb_writer_gemma ag) (stats_text bs ps) = Ok g
            /\ svc (mlb_writer_mixtral ag) (stats_text bs ps) = Ok m
            /\ c = (mlb_editor ag, join nl [l; g; m])
            /\ List.length [l; g; m] = 3)
  /\ (forall r w',
        cell_22 svc ag prompt w = (Ok r, w') ->
        editor_inputs r = [llama_writer r; gemma_writer r; mixtral_writer r]
        /\ List.length (editor_inputs r) = 3
        /\ svc (mlb_writer_llama ag) (stats r) = Ok (llama_writer r)
        /\ svc (mlb_writer_gemma ag) (stats r) = Ok (gemma_writer r)
        /\ svc (mlb_writer_mixtral ag) (stats r) = Ok (mixtral_writer r)
        /\ calls w'
           = calls w
             ++ [ (mlb_researcher ag, prompt);
                  (mlb_batting_statistician ag, game_information r);
                  (mlb_pitching_statistician ag, game_information r);
                  (mlb_writer_llama ag, stats r);
                  (mlb_writer_gemma ag, stats r);
                  (mlb_writer_mixtral ag, stats r);
                  (mlb_editor ag, join nl (editor_inputs r)) ]).
Proof.
  unfold cell_22. split; [intro c; split |].
  - step_run E1; [| calls_at_6; discriminate ..].
    step_run E2; [| calls_at_6; discriminate ..].
    step_run E3; [| calls_at_6; discriminate ..].
    step_run E4; [| calls_at_6; discriminate ..].
    step_run E5; [| calls_at_6; discriminate ..].
    step_run E6; [| calls_at_6; discriminate ..].
    intro H.
    exists a, a0, a1, a2, a3, a4.
    repeat (split; [first [assumption | reflexivity] |]).
    split; [| reflexivity].
    revert H. step_run E7; calls_at_6; intro H; injection H as <-; reflexivity.
  - intros (gi & bs & ps & l & g & m & E1 & E2 & E3 & E4 & E5 & E6 & -> & _).
    rewrite run_bind, E1, run_bind, E2, run_bind, E3, run_bind, E4,
      run_bind, E5, run_bind, E6.
    step_run E7; calls_at_6; reflexivity.
  - intros r w'.
    step_run E1; [| discriminate ..].
    step_run E2; [| discriminate ..].
    step_run E3; [| discriminate ..].
    step_run E4; [| discriminate ..].
    step_run E5; [| discriminate ..].
    step_run E6; [| discriminate ..].
    step_run E7; [| discriminate ..].
    cbn [cell_bind print cell_ret]. intro H. injection H as <- <-.
    cbn [editor_inputs llama_writer gemma_writer mixtral_writer stats
         game_information calls record_call].
    repeat (split; [first [assumption | reflexivity] |]).
    rewrite <- !app_assoc. reflexivity.
Qed.

(** C2 (as stated, refuted).  When the model call of the llama writer fails,
    [run] raises: nothing comes back as a result marked failed.  Cell 22
    ends with that exception after four calls; the gemma and mixtral writers
    are never invoked. *)
Lemma writer_failure_propagates :
  let svc := svc_failing "llama3-70b-8192" in
  let out := cell_22 svc sample_agents user_prompt sample_world in
  fst (run svc (mlb_writer_llama sample_agents) "stats" sample_world)
  = Raise (ServiceError "503 Service Unavailable")
  /\ fst out = Raise (ServiceError "503 Service Unavailable")
  /\ map (fun c => model (llm (fst c))) (calls (snd out))
     = [ "mixtral-8x7b-32768"; "mixtral-8x7b-32768"; "mixtral-8x7b-32768";
         "llama3-70b-8192" ]
  /\ ~ (exists r, fst out = Ok r).
Proof.
  cbv zeta. repeat split; try (vm_compute; reflexivity).
  intros [r Hr]. vm_compute in Hr. discriminate Hr.
Qed.

(** C2 (amended).  A failure of a writer's model call is raised by [run];
    cell 22 has no handler, so the cell ends with that exception at the
    first writer that fails, and the units after it are not invoked: the
    world the cell leaves holds the calls up to the failing one. *)
Theorem unit_failure_aborts_cell (svc : service) (ag : agents)
    (prompt : string) (w : world) (gi bs ps : string) (e : exn) :
  svc (mlb_researcher ag) prompt = Ok gi ->
  svc (mlb_batting_statistician ag) gi = Ok bs ->
  svc (mlb_pitching_statistician ag) gi = Ok ps ->
  let st := stats_text bs ps in
  let w3 :=
    record_call
      (record_call (record_call w (mlb_researcher ag) prompt)
         (mlb_batting_statistician ag) gi)
      (mlb_pitching_statistician ag) gi in
  (svc (mlb_writer_llama ag) st = Raise e ->
   cell_22 svc ag prompt w = (Raise e, record_call w3 (mlb_writer_llama ag) st))
  /\ (forall l,
        svc (mlb_writer_llama ag) st = Ok l ->
        svc (mlb_writer_gemma ag) st = Raise e ->
        cell_22 svc ag prompt w
        = (Raise e,
           record_call (record_call w3 (mlb_writer_llama ag) st)
             (mlb_writer_gemma ag) st))
  /\ (forall l g,
        svc (mlb_writer_llama ag) st = Ok l ->
        svc (mlb_writer_gemma ag) st = Ok g ->
        svc (mlb_writer_mixtral ag) st = Raise e ->
        cell_22 svc ag prompt w
        = (Raise e,
           record_call
             (record_call (record_call w3 (mlb_writer_llama ag) st)
                (mlb_writer_gemma ag) st)
             (mlb_writer_mixtral ag) st)).
Proof.
  intros E1 E2 E3 st w3. subst st w3. unfold cell_22.
  rewrite run_bind, E1, run_bind, E2, run_bind, E3.
  refine (conj _ (conj _ _)).
  - intro E4. rewrite run_bind, E4. reflexivity.
  - intros l E4 E5. rewrite run_bind, E4, run_bind, E5. reflexivity.
  - intros l g E4 E5 E6.
    rewrite run_bind, E4, run_bind, E5, run_bind, E6. reflexivity.
Qed.

Lemma unit_failure_aborts_cell_witness :
  cell_22 (svc_failing "gemma2-9b-it") sample_agents user_prompt sample_world
  = (Raise (ServiceError "503 Service Unavailable"),
     {| clock := sample_later_time;
        calls :=
          [ (mlb_researcher sample_agents, user_prompt);
            (mlb_batting_statistician sample_agents, "reply of mixtral-8x7b-32768");
            (mlb_pitching_statistician sample_agents, "reply of mixtral-8x7b-32768");
            (mlb_writer_llama sample_agents,
             stats_text "reply of mixtral-8x7b-32768" "reply of mixtral-8x7b-32768");
            (mlb_writer_gemma sample_agents,
             stats_text "reply of mixtral-8x7b-32768" "reply of mixtral-8x7b-32768") ];
        stdout := [] |}).
Proof.
  destruct (unit_failure_aborts_cell (svc_failing "gemma2-9b-it") sample_agents
              user_prompt sample_world "reply of mixtral-8x7b-32768"
              "reply of mixtral-8x7b-32768" "reply of mixtral-8x7b-32768"
              (ServiceError "503 Service Unavailable")
              eq_refl eq_refl eq_refl) as (_ & H & _).
  exact (H "reply of llama3-70b-8192" eq_refl eq_refl).
Defined.

Section CallsOfCell22.

Lemma nth_error_calls_0 (w : world) (c : Assistant * string)
    (rest : list (Assistant * string)) :
  nth_error (calls w ++ c :: rest) (List.length (calls w)) = Some c.
Proof.
  rewrite nth_error_app2 by lia. now rewrite Nat.sub_diag.
Qed.

(** Whatever the services answer and whatever the clock reads, the first
    call of cell 22 is to the researcher the agents cell defined. *)
Lemma cell_22_first_call (svc : service) (ag : agents) (prompt : string)
    (w : world) :
  nth_error (calls (snd (cell_22 svc ag prompt w))) (List.length (calls w))
  = Some (mlb_researcher ag, prompt).
Proof.
  unfold cell_22.
  repeat (rewrite run_bind;
          match goal with
          | |- context [match ?s ?a ?m with _ => _ end] => destruct (s a m)
          end);
    cbn [snd fst calls record_call cell_bind print cell_ret stdout clock];
    rewrite <- ?app_assoc; cbn [app]; apply nth_error_calls_0.
Qed.

End CallsOfCell22.

(** C6 (as stated, refuted).  The agents are defined on 2024-07-15 and the
    pipeline is invoked on 2024-07-20 with a prompt that names no date.
    Yesterday relative to the invocation is 2024-07-19, but the researcher
    that is invoked is told to use 2024-07-14. *)
Lemma default_date_not_relative_to_invocation :
  let out :=
    notebook None sample_setup_time svc_all_ok sample_prompt_no_date sample_world in
  isoformat (dt_date (clock sample_world)) = "2024-07-20"
  /\ date_sub_days (dt_date (clock sample_world)) 1 = Ok 739086%Z
  /\ isoformat 739086%Z = "2024-07-19"
  /\ exists a,
       nth_error (calls (snd out)) 0 = Some (a, sample_prompt_no_date)
       /\ hd_error (instructions a)
          = Some "Parse the Team and date (use 2024-07-14 if user does not specify) from the user question."
       /\ hd_error (instructions a) <> Some (researcher_date_instruction 739086%Z).
Proof.
  cbv zeta. split; [vm_compute; reflexivity |].
  split; [vm_compute; reflexivity |].
  split; [vm_compute; reflexivity |].
  eexists. split; [vm_compute; reflexivity |].
  split; [vm_compute; reflexivity |].
  vm_compute. discriminate.
Qed.

(** C6 (amended).  The default date is yesterday relative to the time cell
    20 ran: the researcher's first instruction names that date, and every
    later run of the pipeline, whatever its clock reads, invokes the
    researcher with that same instruction. *)
Theorem default_date_is_yesterday_of_setup (key : option string)
    (setup_time : datetime) (svc : service) (prompt : string) (w : world) :
  (1 < dt_date setup_time <= MAXORDINAL + 1)%Z ->
  exists ag,
    cell_20 key setup_time = Ok ag
    /\ default_date ag = (dt_date setup_time - 1)%Z
    /\ hd_error (instructions (mlb_researcher ag))
       = Some (researcher_date_instruction (dt_date setup_time - 1)%Z)
    /\ nth_error (calls (snd (notebook key setup_time svc prompt w)))
         (List.length (calls w))
       = Some (mlb_researcher ag, prompt).
Proof.
  intro Hrange.
  assert (Hc : cell_20 key setup_time
               = Ok (define_agents key (dt_date setup_time - 1)%Z)).
  { unfold cell_20, date_sub_days.
    replace ((0 <? dt_date setup_time - 1)%Z
             && (dt_date setup_time - 1 <=? MAXORDINAL)%Z) with true; [reflexivity |].
    symmetry. apply andb_true_iff. split; [apply Z.ltb_lt | apply Z.leb_le]; lia. }
  exists (define_agents key (dt_date setup_time - 1)%Z).
  split; [exact Hc |].
  split; [reflexivity |].
  split; [reflexivity |].
  unfold notebook. rewrite Hc. apply cell_22_first_call.
Qed.

Lemma default_date_is_yesterday_of_setup_witness :
  (1 < dt_date sample_setup_time <= MAXORDINAL + 1)%Z
  /\ exists ag,
       cell_20 None sample_setup_time = Ok ag
       /\ default_date ag = 739081%Z.
Proof.
  assert (H : (1 < dt_date sample_setup_time <= MAXORDINAL + 1)%Z)
    by (vm_compute; split; [reflexivity | discriminate]).
  split; [exact H |].
  destruct (default_date_is_yesterday_of_setup None sample_setup_time svc_all_ok
              user_prompt sample_world H) as (ag & Hag & Hd & _).
  exists ag. split; [exact Hag | exact Hd].
Defined.

(** * Further properties of the tools and of the pipeline cell *)

(** ** [get_game_info]: when it returns and how it fails *)

Section GameInfoOutcomes.

Lemma filter_first_match {A : Type} (f : A -> bool) (pre : list A) (x : A)
    (post : list A) :
  (forall y, In y pre -> f y = false) -> f x = true ->
  filter f (pre ++ x :: post) = x :: filter f post.
Proof.
  intros Hpre Hx. rewrite filter_app, (filter_none _ _ Hpre). simpl.
  now rewrite Hx.
Qed.

Lemma filter_nil_none {A : Type} (f : A -> bool) (l : list A) :
  filter f l = [] -> forall y, In y l -> f y = false.
Proof.
  intros H y Hy. destruct (f y) eqn:E; [| reflexivity].
  assert (Hin : In y (filter f l)) by (apply filter_In; now split).
  rewrite H in Hin. contradiction.
Qed.


(** The first matching entry's document is returned. *)
Lemma get_game_info_ok_intro (api : statsapi) (game_date team_name : string)
    (r : regex) (pre : list game) (g : game) (post : list game) :
  schedule api game_date game_date = Ok (pre ++ g :: post) ->
  re_parse team_name = Parsed r ->
  (forall x, In x pre -> contains_compiled r (summary x) = false) ->
  contains_compiled r (summary g) = true ->
  get_game_info api game_date team_name = Ok (context_document g).
Proof.
  intros Hs Hp Hpre Hg.
  rewrite (get_game_info_filtered _ _ _ _ Hs).
  unfold filter_by_summary.
  destruct (pre ++ g :: post) as [| g0 l] eqn:E;
    [destruct pre; discriminate |].
  rewrite Hp, <- E.
  rewrite (filter_first_match (fun x => contains_compiled r (summary x))
             pre g post Hpre Hg).
  reflexivity.
Qed.

(** The same two facts whatever [re] makes of the team name. *)
Lemma get_game_info_with_ok_elim (engine : re_engine) (api : statsapi)
    (game_date team_name : string) (s : string) :
  get_game_info_with engine api game_date team_name = Ok s ->
  exists sched m pre g post,
    schedule api game_date game_date = Ok sched
    /\ engine team_name = Ok m
    /\ sched = pre ++ g :: post
    /\ (forall x, In x pre -> contains_with m (summary x) = false)
    /\ contains_with m (summary g) = true
    /\ s = context_document g.
Proof.
  intro H.
  destruct (schedule api game_date game_date) as [sched | e |] eqn:Hs;
    try (unfold get_game_info_with in H; rewrite Hs in H; discriminate H).
  rewrite (get_game_info_with_filtered _ _ _ _ _ Hs) in H.
  unfold filter_by_summary_with in H.
  destruct sched as [| g0 sched']; [discriminate |].
  destruct (engine team_name) as [m | |] eqn:Hm; try discriminate.
  cbn [bind] in H.
  destruct (filter _ (g0 :: sched')) as [| g l] eqn:Hf; [discriminate |].
  injection H as <-.
  apply filter_first_split in Hf as (pre & post & Heq & Hpre & Hg & _).
  exists (g0 :: sched'), m, pre, g, post. repeat split; assumption.
Qed.

Lemma get_game_info_with_ok_intro (engine : re_engine) (api : statsapi)
    (game_date team_name : string) (m : string -> bool) (pre : list game)
    (g : game) (post : list game) :
  schedule api game_date game_date = Ok (pre ++ g :: post) ->
  engine team_name = Ok m ->
  (forall x, In x pre -> contains_with m (summary x) = false) ->
  contains_with m (summary g) = true ->
  get_game_info_with engine api game_date team_name = Ok (context_document g).
Proof.
  intros Hs Hm Hpre Hg.
  rewrite (get_game_info_with_filtered _ _ _ _ _ Hs).
  rewrite (filter_by_summary_with_compiled engine _ _ m)
    by (exact Hm || (destruct pre; discriminate)).
  rewrite (filter_first_match (fun x => contains_with m (summary x))
             pre g post Hpre Hg).
  reflexivity.
Qed.

End GameInfoOutcomes.

(** X1.  Whatever [re] makes of the team name, [get_game_info] returns
    exactly when the schedule request succeeds, the team name compiles and
    the compiled pattern is found in some entry's summary; the document is
    then that of the first such entry in schedule order (also when it is
    the only one). *)
Theorem get_game_info_returns_iff (engine : re_engine) (api : statsapi)
    (game_date team_name : string) (s : string) :
  get_game_info_with engine api game_date team_name = Ok s
  <-> exists sched m pre g post,
        schedule api game_date game_date = Ok sched
        /\ engine team_name = Ok m
        /\ sched = pre ++ g :: post
        /\ (forall x, In x pre -> contains_with m (summary x) = false)
        /\ contains_with m (summary g) = true
        /\ s = context_document g.
Proof.
  split.
  - apply get_game_info_with_ok_elim.
  - intros (sched & m & pre & g & post & Hs & Hm & -> & Hpre & Hg & ->).
    now apply (get_game_info_with_ok_intro engine api game_date team_name
                 m pre g post).
Qed.

Lemma get_game_info_returns_iff_witness :
  get_game_info_with modelled_re sample_api "2024-07-14" "Yankees"
  = Ok (context_document sample_game_nyy).
Proof.
  apply (get_game_info_returns_iff modelled_re sample_api "2024-07-14" "Yankees").
  exists sample_schedule,
    (fun s => re_search (literal_regex (chars "Yankees")) (chars s)),
    [sample_game_nym], sample_game_nyy, [sample_game_bos].
  repeat split.
  intros x [<- | []]. vm_compute. reflexivity.
Defined.

(** X2.  The order in which [get_game_info] fails.  The exception of the
    schedule request is raised as it is.  On an empty schedule
    [KeyError('summary')] is raised whatever the team name, which is not
    even compiled.  On a schedule with entries, an exception of
    [re.compile] on the team name is raised as it is, before any summary is
    looked at. *)
Theorem get_game_info_failure_order (engine : re_engine) (api : statsapi)
    (game_date team_name : string) :
  (forall e,
      schedule api game_date game_date = Raise e ->
      get_game_info_with engine api game_date team_name = Raise e)
  /\ (schedule api game_date game_date = Ok [] ->
      get_game_info_with engine api game_date team_name
      = Raise (KeyError "summary"))
  /\ (forall sched e,
        schedule api game_date game_date = Ok sched -> sched <> [] ->
        engine team_name = Raise e ->
        get_game_info_with engine api game_date team_name = Raise e).
Proof.
  refine (conj _ (conj _ _)).
  - intros e Hs. unfold get_game_info_with. rewrite Hs. reflexivity.
  - intro Hs. rewrite (get_game_info_with_filtered _ _ _ _ _ Hs). reflexivity.
  - intros sched e Hs Hne He.
    rewrite (get_game_info_with_filtered _ _ _ _ _ Hs).
    unfold filter_by_summary_with. destruct sched; [contradiction |].
    rewrite He. reflexivity.
Qed.

Lemma get_game_info_failure_order_witness :
  get_game_info_with modelled_re sample_api "2024-07-14" "Yankees (5"
  = Raise ReError
  /\ get_game_info_with modelled_re
       {| schedule := fun _ _ => Ok []; boxscore_data := boxscore_data sample_api |}
       "2024-07-14" "Yankees (5"
     = Raise (KeyError "summary").
Proof.
  split.
  - destruct (get_game_info_failure_order modelled_re sample_api "2024-07-14"
                "Yankees (5") as (_ & _ & H).
    apply (H sample_schedule ReError); [reflexivity | discriminate | reflexivity].
  - destruct (get_game_info_failure_order modelled_re
                {| schedule := fun _ _ => Ok [];
                   boxscore_data := boxscore_data sample_api |}
                "2024-07-14" "Yankees (5") as (_ & H & _).
    apply H. reflexivity.
Defined.

(** X3.  An empty [team_name] matches every summary that is present:
    [get_game_info] then returns the document of the first schedule entry
    that has a summary. *)
Theorem get_game_info_empty_team_name (api : statsapi) (game_date : string)
    (pre : list game) (g : game) (post : list game) (text : string) :
  schedule api game_date game_date = Ok (pre ++ g :: post) ->
  (forall x, In x pre -> summary x = None) ->
  summary g = Some text ->
  get_game_info api game_date "" = Ok (context_document g).
Proof.
  intros Hs Hpre Hg.
  apply (get_game_info_ok_intro api game_date "" REps pre g post);
    [exact Hs | reflexivity | |].
  - intros x Hx. unfold contains_compiled. now rewrite (Hpre x Hx).
  - unfold contains_compiled. rewrite Hg. now destruct (chars text).
Qed.

Lemma get_game_info_empty_team_name_witness :
  get_game_info sample_api "2024-07-14" "" = Ok (context_document sample_game_nym).
Proof.
  apply (get_game_info_empty_team_name sample_api "2024-07-14" []
           sample_game_nym [sample_game_nyy; sample_game_bos]
           "2024-07-14 - Colorado Rockies (3) @ New York Mets (7) (Final)").
  - reflexivity.
  - intros x [].
  - reflexivity.
Defined.



(** ** The detail fetchers: order, size and failures of the output *)

Section JoinFacts.

Context {L R : Type} (lkey : L -> string) (rkey : R -> string).

Lemma merge_inner_app (l1 l2 : list L) (right : list R) :
  merge_inner lkey rkey (l1 ++ l2) right
  = merge_inner lkey rkey l1 right ++ merge_inner lkey rkey l2 right.
Proof. unfold merge_inner. apply flat_map_app. Qed.

(** With pairwise distinct right keys a left row meets at most one right
    row. *)
Lemma matches_of_row_nodup (k : string) (right : list R) :
  NoDup (map rkey right) ->
  List.length (filter (fun r => String.eqb k (rkey r)) right)
  = if existsb (fun r => String.eqb k (rkey r)) right then 1 else 0.
Proof.
  induction right as [| r right IH]; intro Hnd; [reflexivity |].
  inversion Hnd as [| x xs Hnotin Hnd']; subst.
  cbn [filter existsb].
  destruct (String.eqb k (rkey r)) eqn:E.
  - apply String.eqb_eq in E. subst k.
    cbn [orb List.length]. f_equal.
    rewrite (IH Hnd').
    destruct (existsb _ right) eqn:Ex; [| reflexivity].
    apply existsb_exists in Ex as (r' & Hin & Hr').
    apply String.eqb_eq in Hr'.
    exfalso. apply Hnotin. rewrite Hr'. now apply in_map.
  - cbn [orb]. now apply IH.
Qed.

Lemma merge_inner_length_nodup (left : list L) (right : list R) :
  NoDup (map rkey right) ->
  List.length (merge_inner lkey rkey left right)
  = List.length
      (filter (fun l => existsb (fun r => String.eqb (lkey l) (rkey r)) right) left).
Proof.
  intro Hnd. unfold merge_inner.
  induction left as [| l left IH]; [reflexivity |].
  cbn [flat_map filter]. rewrite length_app, length_map, IH.
  rewrite (matches_of_row_nodup (lkey l) right Hnd).
  destruct (existsb _ right); reflexivity.
Qed.

End JoinFacts.

(** X5.  The records of the detail fetchers come in two blocks: first those
    of the away side, then those of the home side, each block being the join
    of that side's rows after the first, in table order, and carrying that
    side's team name as first field. *)
Theorem detail_fetchers_away_before_home (api : statsapi) (gid : string)
    (b : boxscore) :
  boxscore_data api gid = Ok b ->
  (forall s,
      get_batting_stats api gid = Ok s ->
      exists ra rh,
        s = json_dumps_records (ra ++ rh)
        /\ ra = map batting_record
                 (merge_inner (fun l => b_name (snd l))
                    (fun r => boxscoreName (snd r))
                    (with_team_name (teamName (teamInfo_away b))
                       (tl (awayBatters b))) (playerInfo b))
        /\ rh = map batting_record
                 (merge_inner (fun l => b_name (snd l))
                    (fun r => boxscoreName (snd r))
                    (with_team_name (teamName (teamInfo_home b))
                       (tl (homeBatters b))) (playerInfo b))
        /\ (forall rec, In rec ra ->
              hd_error rec = Some ("team_name", JStr (teamName (teamInfo_away b))))
        /\ (forall rec, In rec rh ->
              hd_error rec = Some ("team_name", JStr (teamName (teamInfo_home b)))))
  /\ (forall s,
        get_pitching_stats api gid = Ok s ->
        exists ra rh,
          s = json_dumps_records (ra ++ rh)
          /\ ra = map pitching_record
                   (merge_inner (fun l => p_name (snd l))
                      (fun r => boxscoreName (snd r))
                      (with_team_name (teamName (teamInfo_away b))
                         (tl (awayPitchers b))) (playerInfo b))
          /\ rh = map pitching_record
                   (merge_inner (fun l => p_name (snd l))
                      (fun r => boxscoreName (snd r))
                      (with_team_name (teamName (teamInfo_home b))
                         (tl (homePitchers b))) (playerInfo b))
          /\ (forall rec, In rec ra ->
                hd_error rec = Some ("team_name", JStr (teamName (teamInfo_away b))))
          /\ (forall rec, In rec rh ->
                hd_error rec = Some ("team_name", JStr (teamName (teamInfo_home b))))).
Proof.
  intro Hb. split.
  - intros s Hs. unfold get_batting_stats, batting_stats_records in Hs.
    rewrite Hb in Hs. cbn [bind] in Hs.
    destruct (merge_keys_check _ _ _) as [[] | |]; try discriminate.
    cbn [bind] in Hs. injection Hs as <-.
    rewrite merge_inner_app, map_app. unfold iloc_from_1.
    do 2 eexists. split; [reflexivity |].
    split; [reflexivity |]. split; [reflexivity |].
    split; intros rec Hin;
      apply in_map_iff in Hin as ([[team row] [key entry]] & <- & Hin);
      apply merge_inner_In in Hin as (Hl & _ & _);
      apply with_team_name_In in Hl as [Ht _]; simpl in Ht; subst team;
      reflexivity.
  - intros s Hs. unfold get_pitching_stats, pitching_stats_records in Hs.
    rewrite Hb in Hs. cbn [bind] in Hs.
    destruct (merge_keys_check _ _ _) as [[] | |]; try discriminate.
    cbn [bind] in Hs. injection Hs as <-.
    rewrite merge_inner_app, map_app. unfold iloc_from_1.
    do 2 eexists. split; [reflexivity |].
    split; [reflexivity |]. split; [reflexivity |].
    split; intros rec Hin;
      apply in_map_iff in Hin as ([[team row] [key entry]] & <- & Hin);
      apply merge_inner_In in Hin as (Hl & _ & _);
      apply with_team_name_In in Hl as [Ht _]; simpl in Ht; subst team;
      reflexivity.
Qed.

Lemma detail_fetchers_away_before_home_witness :
  exists ra rh,
    get_batting_stats sample_api "745123" = Ok (json_dumps_records (ra ++ rh))
    /\ List.length ra = 1 /\ List.length rh = 1.
Proof.
  destruct (detail_fetchers_away_before_home sample_api "745123" sample_boxscore
              eq_refl) as [H _].
  destruct (H _ eq_refl) as (ra & rh & Hs & Hra & Hrh & _).
  exists ra, rh. split; [rewrite <- Hs; reflexivity |].
  rewrite Hra, Hrh. split; reflexivity.
Defined.

(** X6.  When the [boxscoreName]s of the player-info table are pairwise
    distinct, no row is repeated in the output: the batting fetcher returns
    one record for each row after the first (away, then home) whose name has
    a player-info entry, so never more records than such rows; and likewise
    the pitching fetcher. *)
Theorem detail_fetchers_one_record_per_row (api : statsapi) (gid : string)
    (b : boxscore) :
  boxscore_data api gid = Ok b ->
  NoDup (map (fun e => boxscoreName (snd e)) (playerInfo b)) ->
  (forall s,
      get_batting_stats api gid = Ok s ->
      exists recs,
        s = json_dumps_records recs
        /\ List.length recs
           = List.length
               (filter
                  (fun row =>
                     existsb (fun e => String.eqb (b_name row) (boxscoreName (snd e)))
                       (playerInfo b))
                  (tl (awayBatters b) ++ tl (homeBatters b)))
        /\ List.length recs
           <= List.length (tl (awayBatters b)) + List.length (tl (homeBatters b)))
  /\ (forall s,
        get_pitching_stats api gid = Ok s ->
        exists recs,
          s = json_dumps_records recs
          /\ List.length recs
             = List.length
                 (filter
                    (fun row =>
                       existsb (fun e => String.eqb (p_name row) (boxscoreName (snd e)))
                         (playerInfo b))
                    (tl (awayPitchers b) ++ tl (homePitchers b)))
          /\ List.length recs
             <= List.length (tl (awayPitchers b)) + List.length (tl (homePitchers b))).
Proof.
  intros Hb Hnd.
  assert (Hcount : forall (A : Type) (name : A -> string) (t1 t2 : string)
                     (r1 r2 : list A),
             List.length
               (merge_inner (fun l => name (snd l)) (fun r => boxscoreName (snd r))
                  (with_team_name t1 r1 ++ with_team_name t2 r2) (playerInfo b))
             = List.length
                 (filter
                    (fun row =>
                       existsb (fun e => String.eqb (name row) (boxscoreName (snd e)))
                         (playerInfo b))
                    (r1 ++ r2))).
  { intros A name t1 t2 r1 r2.
    rewrite (merge_inner_length_nodup _ _ _ _ Hnd).
    unfold with_team_name. rewrite !filter_app, !length_app.
    f_equal.
    - induction r1 as [| x r1 IH]; [reflexivity |].
      cbn [map filter snd]. destruct (existsb _ _); cbn [List.length]; now rewrite IH.
    - induction r2 as [| x r2 IH]; [reflexivity |].
      cbn [map filter snd]. destruct (existsb _ _); cbn [List.length]; now rewrite IH. }
  split.
  - intros s Hs. unfold get_batting_stats, batting_stats_records in Hs.
    rewrite Hb in Hs. cbn [bind] in Hs.
    destruct (merge_keys_check _ _ _) as [[] | |]; try discriminate.
    cbn [bind] in Hs. injection Hs as <-.
    eexists. split; [reflexivity |].
    rewrite length_map. unfold iloc_from_1. rewrite Hcount.
    split; [reflexivity |].
    rewrite <- length_app. apply filter_length_le.
  - intros s Hs. unfold get_pitching_stats, pitching_stats_records in Hs.
    rewrite Hb in Hs. cbn [bind] in Hs.
    destruct (merge_keys_check _ _ _) as [[] | |]; try discriminate.
    cbn [bind] in Hs. injection Hs as <-.
    eexists. split; [reflexivity |].
    rewrite length_map. unfold iloc_from_1. rewrite Hcount.
    split; [reflexivity |].
    rewrite <- length_app. apply filter_length_le.
Qed.

Lemma detail_fetchers_one_record_per_row_witness :
  NoDup (map (fun e => boxscoreName (snd e)) (playerInfo sample_boxscore))
  /\ exists recs,
       get_batting_stats sample_api "745123" = Ok (json_dumps_records recs)
       /\ List.length recs = 2.
Proof.
  assert (Hnd : NoDup (map (fun e => boxscoreName (snd e))
                         (playerInfo sample_boxscore))).
  { cbn. repeat constructor; cbn; intuition discriminate. }
  split; [exact Hnd |].
  destruct (detail_fetchers_one_record_per_row sample_api "745123"
              sample_boxscore eq_refl Hnd) as [H _].
  destruct (H _ eq_refl) as (recs & Hs & Hlen & _).
  exists recs. split; [rewrite <- Hs; reflexivity |]. rewrite Hlen. reflexivity.
Defined.

Section FetcherOutcomes.

Lemma merge_keys_check_cases {A : Type} (raw_away raw_home : list A)
    (pinfo : list (string * player_info)) :
  (pinfo = [] /\ merge_keys_check raw_away raw_home pinfo
                 = Raise (KeyError "boxscoreName"))
  \/ (pinfo <> [] /\ raw_away = [] /\ raw_home = []
      /\ merge_keys_check raw_away raw_home pinfo = Raise (KeyError "name"))
  \/ (pinfo <> [] /\ raw_away ++ raw_home <> []
      /\ merge_keys_check raw_away raw_home pinfo = Ok tt).
Proof.
  destruct pinfo as [| p pinfo]; [left; now split |].
  right.
  destruct raw_away as [| a ra]; [destruct raw_home as [| h rh] |].
  - left. repeat split. discriminate.
  - right. repeat split; discriminate.
  - right. repeat split; discriminate.
Qed.

Lemma short_table_tl {A : Type} (l : list A) : List.length l <= 1 -> tl l = [].
Proof. destruct l as [| a [| a' l]]; simpl; intro H; try reflexivity; lia. Qed.

End FetcherOutcomes.

(** X7.  The ways the detail fetchers fail: with the exception of the
    boxscore request; with [KeyError('boxscoreName')] when [playerInfo] is
    empty; with [KeyError('name')] when [playerInfo] has entries and both
    per-side tables are empty.  They raise nothing else; in particular no
    name without counterpart makes them fail. *)
Theorem detail_fetchers_raise_iff (api : statsapi) (gid : string) (e : exn) :
  (get_batting_stats api gid = Raise e
   <-> boxscore_data api gid = Raise e
       \/ exists b,
            boxscore_data api gid = Ok b
            /\ ((playerInfo b = [] /\ e = KeyError "boxscoreName")
                \/ (playerInfo b <> [] /\ awayBatters b = []
                    /\ homeBatters b = [] /\ e = KeyError "name")))
  /\ (get_pitching_stats api gid = Raise e
      <-> boxscore_data api gid = Raise e
          \/ exists b,
               boxscore_data api gid = Ok b
               /\ ((playerInfo b = [] /\ e = KeyError "boxscoreName")
                   \/ (playerInfo b <> [] /\ awayPitchers b = []
                       /\ homePitchers b = [] /\ e = KeyError "name"))).
Proof.
  split.
  - unfold get_batting_stats, batting_stats_records.
    destruct (boxscore_data api gid) as [b | e0 |] eqn:Hb; cbn [bind].
    + destruct (merge_keys_check_cases (awayBatters b) (homeBatters b)
                  (playerInfo b))
        as [[Hp Hc] | [(Hp & Ha & Hh & Hc) | (Hp & Hne & Hc)]];
        rewrite Hc; cbn [bind]; split.
      * intro H. injection H as <-. right. exists b. split; [reflexivity |].
        left. now split.
      * intros [H | (b' & Hb' & [[_ ->] | (Hp' & _)])];
          [discriminate | reflexivity |].
        injection Hb' as <-. contradiction.
      * intro H. injection H as <-. right. exists b. split; [reflexivity |].
        right. repeat split; assumption.
      * intros [H | (b' & Hb' & [[Hp' _] | (_ & _ & _ & ->)])];
          [discriminate | | reflexivity].
        injection Hb' as <-. contradiction.
      * discriminate.
      * intros [H | (b' & Hb' & [[Hp' _] | (_ & Ha & Hh & _)])];
          [discriminate | |]; injection Hb' as <-.
        -- contradiction.
        -- rewrite Ha, Hh in Hne. contradiction.
    + split.
      * intro H. injection H as <-. now left.
      * intros [H | (b & Hb' & _)]; [now injection H as <- | discriminate].
    + split; [discriminate |].
      intros [H | (b & Hb' & _)]; discriminate.
  - unfold get_pitching_stats, pitching_stats_records.
    destruct (boxscore_data api gid) as [b | e0 |] eqn:Hb; cbn [bind].
    + destruct (merge_keys_check_cases (awayPitchers b) (homePitchers b)
                  (playerInfo b))
        as [[Hp Hc] | [(Hp & Ha & Hh & Hc) | (Hp & Hne & Hc)]];
        rewrite Hc; cbn [bind]; split.
      * intro H. injection H as <-. right. exists b. split; [reflexivity |].
        left. now split.
      * intros [H | (b' & Hb' & [[_ ->] | (Hp' & _)])];
          [discriminate | reflexivity |].
        injection Hb' as <-. contradiction.
      * intro H. injection H as <-. right. exists b. split; [reflexivity |].
        right. repeat split; assumption.
      * intros [H | (b' & Hb' & [[Hp' _] | (_ & _ & _ & ->)])];
          [discriminate | | reflexivity].
        injection Hb' as <-. contradiction.
      * discriminate.
      * intros [H | (b' & Hb' & [[Hp' _] | (_ & Ha & Hh & _)])];
          [discriminate | |]; injection Hb' as <-.
        -- contradiction.
        -- rewrite Ha, Hh in Hne. contradiction.
    + split.
      * intro H. injection H as <-. now left.
      * intros [H | (b & Hb' & _)]; [now injection H as <- | discriminate].
    + split; [discriminate |].
      intros [H | (b & Hb' & _)]; discriminate.
Qed.

(** X8.  For a boxscore whose batters' and pitchers' tables hold at most
    their first row on each side (and are not both empty), with a non-empty
    [playerInfo], both fetchers return the empty JSON list. *)
Theorem detail_fetchers_header_only (api : statsapi) (gid : string) (b : boxscore) :
  boxscore_data api gid = Ok b ->
  playerInfo b <> [] ->
  List.length (awayBatters b) <= 1 -> List.length (homeBatters b) <= 1 ->
  awayBatters b ++ homeBatters b <> [] ->
  List.length (awayPitchers b) <= 1 -> List.length (homePitchers b) <= 1 ->
  awayPitchers b ++ homePitchers b <> [] ->
  get_batting_stats api gid = Ok "[]" /\ get_pitching_stats api gid = Ok "[]".
Proof.
  intros Hb Hp Hab Hhb Hbne Hap Hhp Hpne. split.
  - unfold get_batting_stats, batting_stats_records. rewrite Hb. cbn [bind].
    rewrite (merge_keys_check_ok _ _ _ Hp Hbne). cbn [bind].
    unfold iloc_from_1. rewrite (short_table_tl _ Hab), (short_table_tl _ Hhb).
    reflexivity.
  - unfold get_pitching_stats, pitching_stats_records. rewrite Hb. cbn [bind].
    rewrite (merge_keys_check_ok _ _ _ Hp Hpne). cbn [bind].
    unfold iloc_from_1. rewrite (short_table_tl _ Hap), (short_table_tl _ Hhp).
    reflexivity.
Qed.

Lemma detail_fetchers_header_only_witness :
  let b := with_pitchers
             (with_batters sample_boxscore
                [sample_batter "Yankees Batters" "" "AB" "H"]
                [sample_batter "Orioles Batters" "" "AB" "H"])
             [sample_pitcher "Yankees Pitchers" "IP" "K"]
             [sample_pitcher "Orioles Pitchers" "IP" "K"] in
  let api := {| schedule := fun _ _ => Ok sample_schedule;
                boxscore_data := fun _ => Ok b |} in
  get_batting_stats api "745123" = Ok "[]"
  /\ get_pitching_stats api "745123" = Ok "[]".
Proof.
  cbv zeta.
  apply detail_fetchers_header_only
    with (b := with_pitchers
                 (with_batters sample_boxscore
                    [sample_batter "Yankees Batters" "" "AB" "H"]
                    [sample_batter "Orioles Batters" "" "AB" "H"])
                 [sample_pitcher "Yankees Pitchers" "IP" "K"]
                 [sample_pitcher "Orioles Pitchers" "IP" "K"]);
    try reflexivity; try discriminate; simpl; lia.
Defined.

(** ** The pipeline cell: what a run leaves behind *)

Ltac step_run_as x e E :=
  rewrite run_bind;
  match goal with
  | |- context [match ?svc ?a ?m with _ => _ end] =>
      destruct (svc a m) as [x | e |] eqn:E
  end.

Ltac calls_norm :=
  cbn [snd fst calls record_call cell_bind print cell_ret stdout clock];
  rewrite <- ?app_assoc; cbn [app].

(** X9.  A run of cell 22 leaves the clock alone, only adds calls after
    those already made (at least one, at most seven), and prints exactly one
    line, the editor's reply, when it completes; a run that does not
    complete prints nothing. *)
Theorem cell_22_world (svc : service) (ag : agents) (prompt : string) (w : world) :
  clock (snd (cell_22 svc ag prompt w)) = clock w
  /\ (exists new,
        calls (snd (cell_22 svc ag prompt w)) = calls w ++ new
        /\ 1 <= List.length new <= 7)
  /\ (forall r,
        fst (cell_22 svc ag prompt w) = Ok r ->
        stdout (snd (cell_22 svc ag prompt w)) = stdout w ++ [editor r])
  /\ ((forall r, fst (cell_22 svc ag prompt w) <> Ok r) ->
      stdout (snd (cell_22 svc ag prompt w)) = stdout w).
Proof.
  unfold cell_22.
  repeat (rewrite run_bind;
          match goal with
          | |- context [match ?s ?a ?m with _ => _ end] => destruct (s a m)
          end);
    calls_norm;
    (split; [reflexivity |]);
    (split; [eexists; split; [reflexivity | simpl; lia] |]);
    (split; [intros r H; first [discriminate H | injection H as <-; reflexivity]
            | intro H; first [reflexivity | exfalso; eapply H; reflexivity]]).
Qed.

(** X10.  What each unit is given.  The two statisticians are given the
    researcher's reply, verbatim; the three writers are given one and the
    same text, built from the two statisticians' replies alone (neither the
    user's prompt nor the researcher's reply is passed to a writer). *)
Theorem cell_22_messages (svc : service) (ag : agents) (prompt : string)
    (w : world) (c : Assistant * string) :
  let made := calls (snd (cell_22 svc ag prompt w)) in
  let n := List.length (calls w) in
  (nth_error made (n + 1) = Some c ->
   exists gi,
     svc (mlb_researcher ag) prompt = Ok gi
     /\ c = (mlb_batting_statistician ag, gi))
  /\ (nth_error made (n + 2) = Some c ->
      exists gi,
        svc (mlb_researcher ag) prompt = Ok gi
        /\ c = (mlb_pitching_statistician ag, gi))
  /\ (forall k,
        3 <= k <= 5 ->
        nth_error made (n + k) = Some c ->
        exists gi bs ps,
          svc (mlb_researcher ag) prompt = Ok gi
          /\ svc (mlb_batting_statistician ag) gi = Ok bs
          /\ svc (mlb_pitching_statistician ag) gi = Ok ps
          /\ snd c = stats_text bs ps
          /\ fst c = nth (k - 3)
                       [mlb_writer_llama ag; mlb_writer_gemma ag]
                       (mlb_writer_mixtral ag)).
Proof.
  cbv zeta. unfold cell_22.
  step_run_as gi e1 E1.
  2, 3: calls_norm;
    (split; [| split]); [| | intros k Hk]; rewrite nth_error_calls;
    [| | destruct k as [| [| [| [| [| [| k]]]]]]; try lia];
    cbn [nth_error]; discriminate.
  step_run_as bs e2 E2.
  2, 3: calls_norm;
    (split; [| split]); [| | intros k Hk]; rewrite nth_error_calls;
    [| | destruct k as [| [| [| [| [| [| k]]]]]]; try lia];
    cbn [nth_error]; try discriminate;
    intro H; injection H as <-; exists gi; now split.
  step_run_as ps e3 E3.
  2, 3: calls_norm;
    (split; [| split]); [| | intros k Hk]; rewrite nth_error_calls;
    [| | destruct k as [| [| [| [| [| [| k]]]]]]; try lia];
    cbn [nth_error]; try discriminate;
    intro H; injection H as <-; exists gi; now split.
  repeat (rewrite run_bind;
          match goal with
          | |- context [match ?s ?a ?m with _ => _ end] => destruct (s a m)
          end);
    calls_norm;
    (split; [| split]); [| | intros k Hk | | | intros k Hk | | | intros k Hk
                         | | | intros k Hk | | | intros k Hk | | | intros k Hk
                         | | | intros k Hk | | | intros k Hk | | | intros k Hk];
    rewrite nth_error_calls;
    try (destruct k as [| [| [| [| [| [| k]]]]]]; try lia);
    cbn [nth_error]; try discriminate;
    intro H; injection H as <-;
    try (exists gi; now split);
    exists gi, bs, ps; repeat split; assumption.
Qed.

(** X11.  Cell 22 stops at the first unit whose call raises, whichever unit
    it is: when the cell ends with an exception, that exception was raised
    by the last call made, and every call before it had returned. *)
Theorem cell_22_stops_at_first_failure (svc : service) (ag : agents)
    (prompt : string) (w w' : world) (e : exn) :
  cell_22 svc ag prompt w = (Raise e, w') ->
  exists before a m,
    calls w' = calls w ++ before ++ [(a, m)]
    /\ svc a m = Raise e
    /\ Forall (fun c => exists x, svc (fst c) (snd c) = Ok x) before
    /\ stdout w' = stdout w.
Proof.
  unfold cell_22.
  step_run_as gi e1 E1; [| | discriminate].
  2: { intro H. injection H as <- <-.
       exists [], (mlb_researcher ag), prompt. calls_norm.
       repeat split; [assumption | constructor]. }
  step_run_as bs e2 E2; [| | discriminate].
  2: { intro H. injection H as <- <-.
       exists [(mlb_researcher ag, prompt)], (mlb_batting_statistician ag), gi.
       calls_norm. repeat split; [assumption |].
       repeat constructor; cbn [fst snd]; eauto. }
  step_run_as ps e3 E3; [| | discriminate].
  2: { intro H. injection H as <- <-.
       exists [(mlb_researcher ag, prompt); (mlb_batting_statistician ag, gi)],
         (mlb_pitching_statistician ag), gi.
       calls_norm. repeat split; [assumption |].
       repeat constructor; cbn [fst snd]; eauto. }
  step_run_as l e4 E4; [| | discriminate].
  2: { intro H. injection H as <- <-.
       exists [(mlb_researcher ag, prompt); (mlb_batting_statistician ag, gi);
               (mlb_pitching_statistician ag, gi)],
         (mlb_writer_llama ag), (stats_text bs ps).
       calls_norm. repeat split; [assumption |].
       repeat constructor; cbn [fst snd]; eauto. }
  step_run_as g e5 E5; [| | discriminate].
  2: { intro H. injection H as <- <-.
       exists [(mlb_researcher ag, prompt); (mlb_batting_statistician ag, gi);
               (mlb_pitching_statistician ag, gi);
               (mlb_writer_llama ag, stats_text bs ps)],
         (mlb_writer_gemma ag), (stats_text bs ps).
       calls_norm. repeat split; [assumption |].
       repeat constructor; cbn [fst snd]; eauto. }
  step_run_as m e6 E6; [| | discriminate].
  2: { intro H. injection H as <- <-.
       exists [(mlb_researcher ag, prompt); (mlb_batting_statistician ag, gi);
               (mlb_pitching_statistician ag, gi);
               (mlb_writer_llama ag, stats_text bs ps);
               (mlb_writer_gemma ag, stats_text bs ps)],
         (mlb_writer_mixtral ag), (stats_text bs ps).
       calls_norm. repeat split; [assumption |].
       repeat constructor; cbn [fst snd]; eauto. }
  step_run_as ed e7 E7; [discriminate | | discriminate].
  intro H. injection H as <- <-.
  exists [(mlb_researcher ag, prompt); (mlb_batting_statistician ag, gi);
          (mlb_pitching_statistician ag, gi);
          (mlb_writer_llama ag, stats_text bs ps);
          (mlb_writer_gemma ag, stats_text bs ps);
          (mlb_writer_mixtral ag, stats_text bs ps)],
    (mlb_editor ag), (join nl [l; g; m]).
  calls_norm. repeat split; [assumption |].
  repeat constructor; cbn [fst snd]; eauto.
Qed.

Lemma cell_22_stops_at_first_failure_witness :
  exists before a m,
    calls (snd (cell_22 (svc_failing "gemma2-9b-it") sample_agents user_prompt
                  sample_world))
    = calls sample_world ++ before ++ [(a, m)]
    /\ svc_failing "gemma2-9b-it" a m
       = Raise (ServiceError "503 Service Unavailable").
Proof.
  destruct (cell_22_stops_at_first_failure (svc_failing "gemma2-9b-it")
              sample_agents user_prompt sample_world
              (snd (cell_22 (svc_failing "gemma2-9b-it") sample_agents user_prompt
                      sample_world))
              (ServiceError "503 Service Unavailable") eq_refl)
    as (before & a & m & Hc & Hs & _).
  exists before, a, m. split; assumption.
Defined.

(** ** The team-name pattern: parentheses, dots and letter case *)

Section PatternFacts.

Lemma string_app_nil_r (s : string) : (s ++ "")%string = s.
Proof. induction s as [| c s IH]; simpl; [reflexivity | now rewrite IH]. Qed.


Lemma dotted_char_branches (c : ascii) :
  is_special_char c = false \/ c = "."%char ->
  Ascii.eqb c backslash = false /\ Ascii.eqb c "|" = false
  /\ Ascii.eqb c "(" = false /\ Ascii.eqb c ")" = false
  /\ is_repeat_char c = false
  /\ (Ascii.eqb c "." = false -> is_special_char c = false).
Proof.
  intros [H | ->].
  - destruct (plain_char_branches c H) as (E1 & _ & E3 & E4 & E5 & E6).
    repeat split; try assumption. intros _. exact H.
  - repeat split; try reflexivity. discriminate.
Qed.

(** A prefix of plain characters and dots is read item by item, whatever
    the groups that are open. *)
Lemma re_parse_loop_dotted_prefix (p rest : string)
    (stack : list (list regex * list regex)) (alts items : list regex) :
  dotted_fragment p ->
  re_parse_loop (p ++ rest) stack alts items false
  = re_parse_loop rest stack alts (rev (map dotted_item (chars p)) ++ items) false.
Proof.
  unfold dotted_fragment. revert items.
  induction p as [| c p IH]; intros items Hp; [reflexivity |].
  inversion Hp as [| c' cs Hc Hrest]; subst.
  destruct (dotted_char_branches c Hc) as (E1 & E3 & E4 & E5 & E6 & E7).
  cbn [append re_parse_loop]. rewrite E1.
  cbn [chars list_ascii_of_string map rev]. rewrite <- app_assoc. cbn [app].
  unfold dotted_item at 2.
  destruct (Ascii.eqb c ".") eqn:E2.
  - now apply IH.
  - rewrite E3, E4, E5, E6, (E7 eq_refl). now apply IH.
Qed.

Lemma plain_is_dotted (p : string) : plain_fragment p -> dotted_fragment p.
Proof.
  unfold plain_fragment, dotted_fragment. intro H.
  eapply Forall_impl; [| exact H]. intros c Hc. now left.
Qed.

(** After an opening parenthesis, a next character other than the question
    mark opens a plain group. *)
Lemma open_group_branch {A : Type} (q : string) (a b : A) :
  (forall c q', q = String c q' -> Ascii.eqb c "?" = false) ->
  match q with
  | String "?" _ => a
  | _ => b
  end = b.
Proof.
  intro H. destruct q as [| c q']; [reflexivity |].
  specialize (H c q' eq_refl).
  destruct c as [[] [] [] [] [] [] [] []]; try reflexivity; discriminate H.
Qed.

Lemma re_parse_unbalanced (p rest : string) :
  plain_fragment p -> re_parse (p ++ String ")" rest) = ParseError.
Proof.
  intro Hp. unfold re_parse.
  rewrite (re_parse_loop_dotted_prefix p _ [] [] [] (plain_is_dotted p Hp)).
  reflexivity.
Qed.

Lemma re_parse_unterminated (p q : string) :
  plain_fragment p -> plain_fragment q ->
  re_parse (p ++ String "(" q) = ParseError.
Proof.
  intros Hp Hq. unfold re_parse.
  rewrite (re_parse_loop_dotted_prefix p _ [] [] [] (plain_is_dotted p Hp)).
  cbn [re_parse_loop].
  change (Ascii.eqb "(" backslash) with false.
  change (Ascii.eqb "(" ".") with false.
  change (Ascii.eqb "(" "|") with false.
  change (Ascii.eqb "(" "(") with true.
  cbv iota.
  rewrite open_group_branch.
  - rewrite <- (string_app_nil_r q) at 1.
    rewrite (re_parse_loop_dotted_prefix q "" _ [] [] (plain_is_dotted q Hq)).
    reflexivity.
  - intros c q' ->. unfold plain_fragment in Hq.
    inversion Hq as [| c' cs Hc _]; subst.
    destruct (Ascii.eqb c "?") eqn:E; [| reflexivity].
    apply Ascii.eqb_eq in E. subst c. discriminate Hc.
Qed.

End PatternFacts.

(** X12.  A team name with a stray parenthesis is no pattern: on a schedule
    with entries, [get_game_info] fails with [re.error] for plain text
    followed by an opening parenthesis and more plain text, and for plain
    text followed by a closing parenthesis and anything. *)
Theorem get_game_info_stray_parenthesis (api : statsapi) (game_date : string)
    (sched : list game) (p q rest : string) :
  schedule api game_date game_date = Ok sched ->
  sched <> [] ->
  plain_fragment p ->
  plain_fragment q ->
  get_game_info api game_date (p ++ String "(" q) = Raise ReError
  /\ get_game_info api game_date (p ++ String ")" rest) = Raise ReError.
Proof.
  intros Hs Hne Hp Hq. split.
  - rewrite (get_game_info_filtered _ _ _ _ Hs). unfold filter_by_summary.
    destruct sched; [contradiction |].
    now rewrite (re_parse_unterminated p q Hp Hq).
  - rewrite (get_game_info_filtered _ _ _ _ Hs). unfold filter_by_summary.
    destruct sched; [contradiction |].
    now rewrite (re_parse_unbalanced p rest Hp).
Qed.

Lemma get_game_info_stray_parenthesis_witness :
  get_game_info sample_api "2024-07-14" "Yankees (5" = Raise ReError
  /\ get_game_info sample_api "2024-07-14" "Yankees 5) @" = Raise ReError.
Proof.
  split.
  - apply (get_game_info_stray_parenthesis sample_api "2024-07-14"
             sample_schedule "Yankees " "5" "");
      [reflexivity | discriminate | |];
      unfold plain_fragment; vm_compute; repeat constructor.
  - apply (get_game_info_stray_parenthesis sample_api "2024-07-14"
             sample_schedule "Yankees 5" "" " @");
      [reflexivity | discriminate | |];
      unfold plain_fragment; vm_compute; repeat constructor.
Defined.

Section DottedFragments.

Lemma mk_branch_rev (l : list regex) :
  mk_branch (rev l) = fold_right RSeq REps l.
Proof.
  unfold mk_branch.
  induction l as [| r l IH]; [reflexivity |].
  cbn [rev fold_right]. rewrite fold_left_app. cbn [fold_left].
  now rewrite IH.
Qed.

Lemma re_parse_dotted (fragment : string) :
  dotted_fragment fragment ->
  re_parse fragment
  = Parsed (fold_right RSeq REps (map dotted_item (chars fragment))).
Proof.
  intro H. unfold re_parse.
  rewrite <- (string_app_nil_r fragment) at 1.
  rewrite (re_parse_loop_dotted_prefix fragment "" [] [] [] H).
  cbn [re_parse_loop mk_alt fold_left]. now rewrite app_nil_r, mk_branch_rev.
Qed.

Lemma folds_to_dot_not_newline (x : ascii) :
  lower_char x = lower_char "." -> Ascii.eqb x newline = false.
Proof.
  destruct x as [[] [] [] [] [] [] [] []]; intro H;
    try reflexivity; vm_compute in H; discriminate H.
Qed.

(** A string that equals the fragment up to letter case is matched by the
    fragment's pattern: each dot meets the dot it stands for. *)
Lemma dotted_regex_lang (cs m : list ascii) :
  lower m = lower cs ->
  re_lang (fold_right RSeq REps (map dotted_item cs)) m.
Proof.
  revert m.
  induction cs as [| c cs IH]; intros m H.
  - destruct m; [constructor | discriminate].
  - destruct m as [| x m']; [discriminate |].
    simpl in H. injection H as Hx Hm.
    cbn [map fold_right]. change (x :: m') with ([x] ++ m').
    constructor; [| now apply IH].
    unfold dotted_item. destruct (Ascii.eqb c ".") eqn:E.
    + apply Ascii.eqb_eq in E. subst c.
      constructor. now apply folds_to_dot_not_newline.
    + constructor. apply ci_eqb_lower. now symmetry.
Qed.

End DottedFragments.

(** X13.  A team name made of plain characters and dots, such as
    [St. Louis], selects at least every entry whose summary contains it as a
    case-insensitive substring: reading the dots as wildcards only adds
    entries. *)
Theorem filter_by_summary_dotted (sched : list game) (team_name : string) :
  dotted_fragment team_name ->
  sched <> [] ->
  exists l,
    filter_by_summary sched team_name = Ok l
    /\ forall g,
         In g sched -> substring_ci team_name (summary g) = true -> In g l.
Proof.
  intros Hd Hne. unfold filter_by_summary.
  destruct sched as [| g0 sched'] eqn:Es; [contradiction |].
  rewrite (re_parse_dotted _ Hd). eexists. split; [reflexivity |].
  intros g Hin Hsub. apply filter_In. split; [exact Hin |].
  unfold substring_ci in Hsub. unfold contains_compiled.
  destruct (summary g) as [s |]; [| discriminate].
  apply is_substring_spec in Hsub as (pre' & post' & H).
  unfold lower in H.
  apply map_eq_app in H as (pre & rest & Hs & <- & H).
  apply map_eq_app in H as (m & post & -> & Hm & <-).
  apply re_search_spec. exists pre, m, post. split; [exact Hs |].
  now apply dotted_regex_lang.
Qed.

Lemma filter_by_summary_dotted_witness :
  exists l,
    filter_by_summary sample_schedule "N.w York" = Ok l
    /\ substring_ci "N.w York" (summary sample_game_nyy) = false
    /\ In sample_game_nyy l.
Proof.
  destruct (filter_by_summary_dotted sample_schedule "N.w York") as (l & Hl & _).
  - unfold dotted_fragment. cbn [chars list_ascii_of_string].
    repeat (apply Forall_cons;
            [first [left; reflexivity | right; reflexivity] |]).
    apply Forall_nil.
  - discriminate.
  - exists l. split; [exact Hl |]. split; [vm_compute; reflexivity |].
    vm_compute in Hl. injection Hl as <-. right. left. reflexivity.
Defined.

Section LetterCase.

Ltac all_ascii c := destruct c as [[] [] [] [] [] [] [] []]; reflexivity.

Lemma lower_char_idem (c : ascii) : lower_char (lower_char c) = lower_char c.
Proof. all_ascii c. Qed.

(** Case folding changes no character the parser looks at. *)
Lemma lower_char_tests (c : ascii) :
  Ascii.eqb (lower_char c) backslash = Ascii.eqb c backslash
  /\ Ascii.eqb (lower_char c) "." = Ascii.eqb c "."
  /\ Ascii.eqb (lower_char c) "|" = Ascii.eqb c "|"
  /\ Ascii.eqb (lower_char c) "(" = Ascii.eqb c "("
  /\ Ascii.eqb (lower_char c) ")" = Ascii.eqb c ")"
  /\ Ascii.eqb (lower_char c) "*" = Ascii.eqb c "*"
  /\ Ascii.eqb (lower_char c) "+" = Ascii.eqb c "+"
  /\ Ascii.eqb (lower_char c) "?" = Ascii.eqb c "?"
  /\ is_repeat_char (lower_char c) = is_repeat_char c
  /\ is_special_char (lower_char c) = is_special_char c
  /\ is_ascii_alnum (lower_char c) = is_ascii_alnum c
  /\ Ascii.eqb (lower_char c) newline = Ascii.eqb c newline.
Proof.
  destruct c as [[] [] [] [] [] [] [] []]; repeat split; reflexivity.
Qed.

Lemma chars_lower_string (s : string) : chars (lower_string s) = lower (chars s).
Proof. induction s as [| c s IH]; simpl; [reflexivity | now rewrite IH]. Qed.

Lemma lower_string_of_fold (s t : string) :
  lower (chars s) = lower (chars t) -> lower_string s = lower_string t.
Proof.
  intro H. rewrite <- !chars_lower_string in H.
  unfold chars in H.
  rewrite <- (string_of_list_ascii_of_string (lower_string s)),
          <- (string_of_list_ascii_of_string (lower_string t)).
  now rewrite H.
Qed.

Lemma mk_branch_lower (items : list regex) :
  mk_branch (map regex_lower items) = regex_lower (mk_branch items).
Proof.
  unfold mk_branch. change REps with (regex_lower REps) at 1.
  generalize REps.
  induction items as [| it items IH]; intro acc; [reflexivity |].
  cbn [map fold_left]. exact (IH (RSeq it acc)).
Qed.

Lemma mk_alt_lower (alts : list regex) (last : regex) :
  mk_alt (map regex_lower alts) (regex_lower last) = regex_lower (mk_alt alts last).
Proof.
  unfold mk_alt. revert last.
  induction alts as [| a alts IH]; intro last; [reflexivity |].
  cbn [map fold_left]. exact (IH (RAlt a last)).
Qed.

Lemma apply_repeat_lower (c : ascii) (r : regex) :
  apply_repeat (lower_char c) (regex_lower r) = regex_lower (apply_repeat c r).
Proof.
  unfold apply_repeat.
  destruct (lower_char_tests c) as (_ & _ & _ & _ & _ & E1 & E2 & _).
  rewrite E1, E2.
  destruct (Ascii.eqb c "*"); [reflexivity |].
  destruct (Ascii.eqb c "+"); reflexivity.
Qed.

(** Parsing the case-folded pattern gives the case-folded expression. *)
Lemma re_parse_loop_lower (n : nat) :
  forall (s : string) (stack : list (list regex * list regex))
         (alts items : list regex) (after_repeat : bool),
    String.length s <= n ->
    re_parse_loop (lower_string s) (frames_lower stack)
      (map regex_lower alts) (map regex_lower items) after_repeat
    = result_lower (re_parse_loop s stack alts items after_repeat).
Proof.
  induction n as [| n IH]; intros s stack alts items ar Hlen.
  - destruct s; [| simpl in Hlen; lia].
    cbn [lower_string re_parse_loop].
    destruct stack; cbn [frames_lower map]; [| reflexivity].
    cbn [result_lower]. now rewrite mk_branch_lower, mk_alt_lower.
  - destruct s as [| c rest].
    + cbn [lower_string re_parse_loop].
      destruct stack; cbn [frames_lower map]; [| reflexivity].
      cbn [result_lower]. now rewrite mk_branch_lower, mk_alt_lower.
    + assert (Hrest : String.length rest <= n) by (simpl in Hlen; lia).
      destruct (lower_char_tests c)
        as (T1 & T2 & T3 & T4 & T5 & T6 & T7 & T8 & T9 & T10 & _ & _).
      cbn [lower_string re_parse_loop].
      rewrite T1, T2, T3, T4, T5, T6, T9, T10.
      destruct (Ascii.eqb c backslash).
      { destruct rest as [| d rest']; [reflexivity |].
        cbn [lower_string].
        destruct (lower_char_tests d) as (_ & _ & _ & _ & _ & _ & _ & _ & _ & _ & A & _).
        rewrite A. destruct (is_ascii_alnum d); [reflexivity |].
        apply (IH rest' stack alts (RChar d :: items) false).
        simpl in Hrest. lia. }
      destruct (Ascii.eqb c ".").
      { exact (IH rest stack alts (RAny :: items) false Hrest). }
      destruct (Ascii.eqb c "|").
      { rewrite mk_branch_lower.
        exact (IH rest stack (mk_branch items :: alts) [] false Hrest). }
      destruct (Ascii.eqb c "(").
      { destruct rest as [| d rest'].
        - exact (IH EmptyString ((alts, items) :: stack) [] [] false Hrest).
        - destruct (Ascii.eqb d "?") eqn:Ed.
          + apply Ascii.eqb_eq in Ed. subst d. reflexivity.
          + rewrite (open_group_branch (lower_string (String d rest'))).
            * rewrite (open_group_branch (String d rest')).
              -- exact (IH (String d rest') ((alts, items) :: stack) [] [] false
                          Hrest).
              -- intros c0 q0 H0. injection H0 as <- _. exact Ed.
            * intros c0 q0 H0. cbn [lower_string] in H0. injection H0 as <- _.
              destruct (lower_char_tests d) as (_ & _ & _ & _ & _ & _ & _ & B & _).
              now rewrite B. }
      destruct (Ascii.eqb c ")").
      { destruct stack as [| [alts' items'] stack']; [reflexivity |].
        cbn [frames_lower map fst snd].
        rewrite mk_branch_lower, mk_alt_lower.
        exact (IH rest stack' alts' (mk_alt alts (mk_branch items) :: items')
                 false Hrest). }
      destruct (is_repeat_char c).
      { destruct ar.
        - destruct (Ascii.eqb c "*"); reflexivity.
        - destruct items as [| it items']; [reflexivity |].
          cbn [map]. rewrite apply_repeat_lower.
          exact (IH rest stack alts (apply_repeat c it :: items') true Hrest). }
      destruct (is_special_char c); [reflexivity |].
      exact (IH rest stack alts (RChar c :: items) false Hrest).
Qed.

Lemma re_parse_lower (s : string) :
  re_parse (lower_string s) = result_lower (re_parse s).
Proof.
  unfold re_parse.
  exact (re_parse_loop_lower (String.length s) s [] [] [] false (le_n _)).
Qed.

Lemma nullable_lower (r : regex) : nullable (regex_lower r) = nullable r.
Proof.
  induction r; simpl; try reflexivity; now rewrite ?IHr1, ?IHr2.
Qed.

Lemma deriv_lower (c : ascii) (r : regex) :
  deriv c (regex_lower r) = regex_lower (deriv c r).
Proof.
  induction r as [| | a | | a IHa b IHb | a IHa b IHb | a IHa]; simpl;
    try reflexivity.
  - unfold ci_eqb. rewrite lower_char_idem.
    destruct (Ascii.eqb (lower_char a) (lower_char c)); reflexivity.
  - destruct (Ascii.eqb c newline); reflexivity.
  - rewrite nullable_lower, IHa, IHb. destruct (nullable a); reflexivity.
  - now rewrite IHa, IHb.
  - now rewrite IHa.
Qed.

Lemma re_match_prefix_lower (s : list ascii) (r : regex) :
  re_match_prefix (regex_lower r) s = re_match_prefix r s.
Proof.
  revert r. induction s as [| c s IH]; intro r; simpl.
  - now rewrite nullable_lower.
  - now rewrite nullable_lower, deriv_lower, IH.
Qed.

Lemma re_search_lower (r : regex) (s : list ascii) :
  re_search (regex_lower r) s = re_search r s.
Proof.
  induction s as [| c s IH]; cbn [re_search].
  - now rewrite re_match_prefix_lower.
  - now rewrite re_match_prefix_lower, IH.
Qed.




End LetterCase.

(** X14.  The selection ignores the letter case of the team name: within the
    modelled pattern fragment, two team names that are equal up to letter
    case select the same entries, and fail alike. *)
Theorem filter_by_summary_ignores_team_case (sched : list game)
    (team1 team2 : string) :
  re_parse team1 <> OutOfFragment ->
  lower (chars team1) = lower (chars team2) ->
  filter_by_summary sched team1 = filter_by_summary sched team2
  /\ re_parse team2 <> OutOfFragment.
Proof.
  intros Hin H. apply lower_string_of_fold in H.
  assert (Hp2 : result_lower (re_parse team1) = result_lower (re_parse team2))
    by now rewrite <- !re_parse_lower, H.
  split;
    [| intro E; rewrite E in Hp2; destruct (re_parse team1);
       try discriminate Hp2; now apply Hin].
  clear Hin. revert Hp2. intro Hp0.
  assert (Hp : result_lower (re_parse team1) = result_lower (re_parse team2))
    by exact Hp0.
  unfold filter_by_summary. destruct sched as [| g0 sched']; [reflexivity |].
  destruct (re_parse team1) as [r1 | |], (re_parse team2) as [r2 | |];
    try discriminate Hp; try reflexivity.
  injection Hp as Hr. f_equal. apply filter_ext. intro g.
  unfold contains_compiled. destruct (summary g) as [s |]; [| reflexivity].
  now rewrite <- (re_search_lower r1), <- (re_search_lower r2), Hr.
Qed.

Lemma filter_by_summary_ignores_team_case_witness :
  filter_by_summary sample_schedule "YANKEES"
  = filter_by_summary sample_schedule "yankees".
Proof.
  apply (filter_by_summary_ignores_team_case sample_schedule "YANKEES" "yankees").
  - discriminate.
  - reflexivity.
Defined.



(** ** The JSON the tools return *)

Section JsonFacts.

Lemma string_app_assoc (a b c : string) :
  ((a ++ b) ++ c)%string = (a ++ (b ++ c))%string.
Proof. induction a as [| x a IH]; simpl; [reflexivity | now rewrite IH]. Qed.

(** An escaped character can be read back, whatever follows it. *)
Lemma json_unescape_escape (a : ascii) (x : string) :
  json_unescape_head (json_escape_char a ++ x) = Some (a, x).
Proof. destruct a as [[] [] [] [] [] [] [] []]; reflexivity. Qed.

Lemma json_escape_delimited (a b : string) (x y : string) :
  (json_escape a ++ String quote_char x)%string
  = (json_escape b ++ String quote_char y)%string ->
  a = b /\ x = y.
Proof.
  revert b.
  induction a as [| c a IH]; intros [| d b] H; cbn [json_escape] in H.
  - cbn in H. injection H as ->. now split.
  - apply (f_equal json_unescape_head) in H.
    rewrite string_app_assoc, json_unescape_escape in H. discriminate H.
  - apply (f_equal json_unescape_head) in H.
    rewrite string_app_assoc, json_unescape_escape in H. discriminate H.
  - apply (f_equal json_unescape_head) in H.
    rewrite !string_app_assoc, !json_unescape_escape in H.
    injection H as -> H. destruct (IH b H) as [-> ->]. now split.
Qed.

(** A JSON string is self-delimiting. *)
Lemma json_string_delimited (a b x y : string) :
  (json_string a ++ x)%string = (json_string b ++ y)%string -> a = b /\ x = y.
Proof.
  unfold json_string. cbn [append]. intro H. injection H as H.
  rewrite !string_app_assoc in H. cbn [append] in H.
  now apply json_escape_delimited.
Qed.

Lemma string_of_uint_chars (d : Decimal.uint) :
  Forall (fun c => int_char c = true) (chars (NilEmpty.string_of_uint d)).
Proof. induction d; simpl; constructor; try reflexivity; assumption. Qed.

Lemma str_of_Z_chars (z : Z) :
  Forall (fun c => int_char c = true) (chars (str_of_Z z)).
Proof.
  unfold str_of_Z, NilZero.string_of_int, NilZero.string_of_uint.
  destruct (Z.to_int z) as [d | d]; destruct d;
    try (repeat constructor; fail);
    cbn [chars list_ascii_of_string]; repeat (constructor; [reflexivity |]);
    try apply string_of_uint_chars; try constructor.
Qed.

Lemma str_of_Z_inj (z z' : Z) : str_of_Z z = str_of_Z z' -> z = z'.
Proof.
  unfold str_of_Z. intro H.
  assert (Hn : forall n, Z.to_int n <> Decimal.Pos Decimal.Nil
                         /\ Z.to_int n <> Decimal.Neg Decimal.Nil).
  { intros [| p | p]; split; try discriminate; simpl; intro E;
      injection E as E; now apply Unsigned.to_uint_nonnil in E. }
  apply DecimalZ.to_int_inj.
  assert (S1 := NilZero.isi (Z.to_int z) (proj1 (Hn z)) (proj2 (Hn z))).
  assert (S2 := NilZero.isi (Z.to_int z') (proj1 (Hn z')) (proj2 (Hn z'))).
  rewrite H in S1. rewrite S1 in S2. now injection S2.
Qed.

(** Text without a comma, followed by a comma, is self-delimiting. *)
Lemma comma_delimited (u u' x y : string) :
  Forall (fun c => int_char c = true) (chars u) ->
  Forall (fun c => int_char c = true) (chars u') ->
  (u ++ String "," x)%string = (u' ++ String "," y)%string ->
  u = u' /\ x = y.
Proof.
  revert u'.
  induction u as [| c u IH]; intros [| c' u'] Hu Hu' H; cbn [append] in H.
  - injection H as ->. now split.
  - injection H as <- _. inversion Hu' as [| ? ? Hc _]. discriminate Hc.
  - injection H as -> _. inversion Hu as [| ? ? Hc _]. discriminate Hc.
  - injection H as -> H.
    inversion Hu; inversion Hu'; subst.
    destruct (IH u') as [-> ->]; try assumption. now split.
Qed.

Lemma json_int_delimited (z z' : Z) (x y : string) :
  (str_of_Z z ++ String "," x)%string = (str_of_Z z' ++ String "," y)%string ->
  z = z' /\ x = y.
Proof.
  intro H.
  apply comma_delimited in H as [H ->]; try apply str_of_Z_chars.
  split; [now apply str_of_Z_inj | reflexivity].
Qed.

End JsonFacts.

(** X16.  The document [get_game_info] builds loses nothing: two schedule
    rows give the same document only if they agree on the game id, both team
    names, both scores, the winner and the series status (quotes,
    backslashes and control characters in the names are escaped, so no two
    different rows collide). *)
Theorem context_document_injective (g g' : game) :
  context_document g = context_document g' ->
  game_id g = game_id g'
  /\ home_name g = home_name g'
  /\ home_score g = home_score g'
  /\ away_name g = away_name g'
  /\ away_score g = away_score g'
  /\ winning_team g = winning_team g'
  /\ series_status g = series_status g'.
Proof.
  unfold context_document, json_dumps_dict. intro H.
  cbn -[str_of_Z json_escape] in H.
  injection H as H.
  rewrite !string_app_assoc in H. cbn [append] in H.
  apply json_escape_delimited in H as [Hid H]. injection H as H.
  rewrite !string_app_assoc in H. cbn [append] in H.
  apply json_escape_delimited in H as [Hhn H]. injection H as H.
  rewrite !string_app_assoc in H. cbn [append] in H.
  apply json_int_delimited in H as [Hhs H]. injection H as H.
  rewrite !string_app_assoc in H. cbn [append] in H.
  apply json_escape_delimited in H as [Han H]. injection H as H.
  rewrite !string_app_assoc in H. cbn [append] in H.
  apply json_int_delimited in H as [Has H]. injection H as H.
  rewrite !string_app_assoc in H. cbn [append] in H.
  apply json_escape_delimited in H as [Hwt H]. injection H as H.
  rewrite !string_app_assoc in H. cbn [append] in H.
  apply json_escape_delimited in H as [Hss _].
  apply str_of_Z_inj in Hid.
  repeat split; assumption.
Qed.

Lemma context_document_injective_witness :
  let g' := {| game_id := 745123; summary := None;
               home_name := "Baltimore Orioles"; home_score := 6;
               away_name := "New York Yankees"; away_score := 5;
               winning_team := "Baltimore Orioles";
               series_status := "BAL wins 2-1" |} in
  context_document sample_game_nyy = context_document g'
  /\ game_id sample_game_nyy = game_id g'
  /\ home_score sample_game_nyy = home_score g'.
Proof.
  cbv zeta. split; [reflexivity |].
  destruct (context_document_injective sample_game_nyy
              {| game_id := 745123; summary := None;
                 home_name := "Baltimore Orioles"; home_score := 6;
                 away_name := "New York Yankees"; away_score := 5;
                 winning_team := "Baltimore Orioles";
                 series_status := "BAL wins 2-1" |} eq_refl)
    as (H1 & _ & H3 & _).
  split; assumption.
Defined.

Section PrintableOutput.









End PrintableOutput.

